(** * The riscv64 guest front end of VEX: instruction reader, bit-field
      helpers, the quadrant decoders and the top-level [disInstr_RISCV64]

    A shallow embedding of [VEX/priv/guest_riscv64_toIR.c].  C integers are
    [Z] with the wrap-around of each width written out, the byte window is a
    function from offsets to bytes whose reads are recorded, and the decoder
    runs in a state-and-error monad: the state holds the [DisResult] the C
    code reaches through [dres], the [IRSB] it reaches through [irsb], the
    global [vex_traceflags] and the text handed to [vex_printf]; a failed
    [vassert] ends the run with the text of the asserted condition. *)

From Stdlib Require Import ZArith Lia Bool String Ascii.
From Stdlib Require Import Strings.Byte.
From stdpp Require Import base decidable list.

Local Open Scope Z_scope.

(** ** Machine integers *)

(** Conversion to [UInt] (32 bits, unsigned). *)
Definition to_UInt (z : Z) : Z := z mod 2 ^ 32.

(** Conversion to [ULong] (64 bits, unsigned). *)
Definition to_ULong (z : Z) : Z := z mod 2 ^ 64.

(** The cast [(Long)x] of a 64-bit pattern: two's complement reading. *)
Definition to_Long (z : Z) : Z :=
  let u := to_ULong z in if u <? 2 ^ 63 then u else u - 2 ^ 64.

(** [a << k] on [UInt]. *)
Definition shl_UInt (a k : Z) : Z := to_UInt (Z.shiftl a k).

(** [a << k] on [ULong]. *)
Definition shl_ULong (a k : Z) : Z := to_ULong (Z.shiftl a k).

(** [Addr] is the host word, 64 bits on the hosts this front end runs on;
    [a + n] on [Addr]. *)
Definition add_Addr (a n : Z) : Z := to_ULong (a + n).

(** The numeric value of a C character constant. *)
Definition char_code (c : ascii) : Z := Z.of_N (N_of_ascii c).

(** ** Results of code that can hit a [vassert] *)

Inductive Res (A : Type) : Type :=
| Ok (a : A)
| Abort (assertion : string).
Arguments Ok {A} a.
Arguments Abort {A} assertion.

Class Monad (m : Type -> Type) : Type := {
  ret : forall {A : Type}, A -> m A;
  bind : forall {A B : Type}, m A -> (A -> m B) -> m B
}.

Declare Scope monad_scope.
Delimit Scope monad_scope with monad.
Notation "x <- c1 ;; c2" := (bind c1 (fun x => c2))
  (at level 100, c1 at next level, right associativity) : monad_scope.
Notation "c1 ;; c2" := (bind c1 (fun _ => c2))
  (at level 100, right associativity) : monad_scope.
Local Open Scope monad_scope.

#[export] Instance Res_Monad : Monad Res := {|
  ret := fun A a => Ok a;
  bind := fun A B r k => match r with Ok a => k a | Abort s => Abort s end
|}.

(** ** Reading the instruction stream *)

(** A pointer [const UChar* p] is the function giving the byte at each
    offset from [p].  A computation that reads through it returns its value
    and the offsets it dereferenced, in order. *)
Definition Fetch (A : Type) : Type := (Z -> byte) -> A * list Z.

#[export] Instance Fetch_Monad : Monad Fetch := {|
  ret := fun A a => fun _ => (a, []);
  bind := fun A B m k => fun p =>
    let '(a, t1) := m p in let '(b, t2) := k a p in (b, t1 ++ t2)
|}.

(** The value of a [UChar]. *)
Definition UChar_val (b : byte) : Z := Z.of_N (Byte.to_N b).

(** [p[i]], promoted to an integer. *)
Definition deref (i : Z) : Fetch Z :=
  fun p => (UChar_val (p i), [i]).

(** [&p[delta]]. *)
Definition offset_ptr (p : Z -> byte) (delta : Z) : Z -> byte :=
  fun i => p (delta + i).

(** Do read of an instruction, which can be 16-bit (compressed) or 32-bit in
    size. *)
Definition getInsn : Fetch Z :=
  p0 <- deref 0;;
  let is_compressed := negb (Z.land p0 3 =? 3) in
  let w := 0 in
  w <- (if negb is_compressed then
          p3 <- deref 3;;
          let w := Z.lor (shl_UInt w 8) p3 in
          p2 <- deref 2;;
          let w := Z.lor (shl_UInt w 8) p2 in
          ret w
        else ret w);;
  p1 <- deref 1;;
  let w := Z.lor (shl_UInt w 8) p1 in
  p0 <- deref 0;;
  let w := Z.lor (shl_UInt w 8) p0 in
  ret w.

(** Sign extend a N-bit value up to 64 bits, by copying bit N-1 into all
    higher positions. *)
Definition sx_to_64 (x n : Z) : Res Z :=
  if (1 <? n) && (n <? 64) then
    let x := shl_ULong x (64 - n) in
    let r := to_Long x in
    let r := Z.shiftr r (64 - n) in
    Ok (to_ULong r)
  else Abort "n > 1 && n < 64".

(** The reference formula of the specification, as a signed number:
    [((value << (64-width)) as signed) >> (64-width)]. *)
Definition signExtend_reference (value width : Z) : Z :=
  Z.shiftr (to_Long (Z.shiftl value (64 - width))) (64 - width).

Definition BITS2 (_b1 _b0 : Z) : Z := Z.lor (Z.shiftl _b1 1) _b0.
Definition BITS3 (_b2 _b1 _b0 : Z) : Z :=
  Z.lor (Z.lor (Z.shiftl _b2 2) (Z.shiftl _b1 1)) _b0.

Definition X00 : Z := BITS2 0 0.
Definition X01 : Z := BITS2 0 1.
Definition X10 : Z := BITS2 1 0.
Definition X11 : Z := BITS2 1 1.

(** Produce _uint[_bMax:_bMin]. *)
Definition SLICE_UInt (_uint _bMax _bMin : Z) : Z :=
  Z.land (Z.shiftr (to_UInt _uint) _bMin)
         (to_UInt (to_ULong (shl_ULong 1 (_bMax - _bMin + 1) - 1))).

(** ** The IR the decoder produces *)

(** Modelled from the spec: the IR types of [libvex_ir.h], which is outside
    the translated file.  The decoder only appends to an ordered sequence
    of statements; of the expression forms it builds constants and
    guest-state reads, of the statement forms guest-state writes. *)
Inductive IRType : Type :=
| Ity_INVALID | Ity_I1 | Ity_I8 | Ity_I16 | Ity_I32 | Ity_I64 | Ity_I128.

Inductive IRConst : Type :=
| IRConst_U8 (u8 : Z)
| IRConst_U16 (u16 : Z)
| IRConst_U32 (u32 : Z)
| IRConst_U64 (u64 : Z).

Inductive IRExpr : Type :=
| IRExpr_Get (offset : Z) (ty : IRType)
| IRExpr_Const (con : IRConst).

Inductive IRStmt : Type :=
| IRStmt_NoOp
| IRStmt_Put (offset : Z) (data : IRExpr).

(** The superblock under construction: the types of its temporaries and
    its statements, oldest first. *)
Record IRSB : Type := mkIRSB {
  tyenv : list IRType;
  stmts : list IRStmt
}.

#[export] Instance IRType_eq_dec : EqDecision IRType.
Proof. solve_decision. Defined.

(** Modelled from the spec: [typeOfIRConst] and [typeOfIRExpr] of
    [ir_defs.c] give the static type of a constant and of an expression;
    the type environment matters for temporaries only. *)
Definition typeOfIRConst (con : IRConst) : IRType :=
  match con with
  | IRConst_U8 _ => Ity_I8
  | IRConst_U16 _ => Ity_I16
  | IRConst_U32 _ => Ity_I32
  | IRConst_U64 _ => Ity_I64
  end.

Definition typeOfIRExpr (env : list IRType) (e : IRExpr) : IRType :=
  match e with
  | IRExpr_Get _ ty => ty
  | IRExpr_Const con => typeOfIRConst con
  end.

(** Modelled from the spec: the block is an ordered, append-only sequence
    of statements, and [addStmtToIRSB] of [ir_defs.c] puts the statement at
    its end. *)
Definition addStmtToIRSB (bb : IRSB) (st : IRStmt) : IRSB :=
  mkIRSB (tyenv bb) (stmts bb ++ [st]).

(** ** The result of disassembling one instruction *)

(** Modelled from the spec: [DisResult] and its enumerations are declared
    in [guest_generic_bb_to_IR.h] and [libvex_ir.h], [VexArch] in
    [libvex.h].  No named enumerator has the value zero, so the all-zero
    pattern that [vex_bzero] leaves is a value of its own in each of them. *)
Inductive DisWhatNext : Type := Dis_whatNext_0 | Dis_StopHere | Dis_Continue.

Inductive DisHint : Type := Dis_hint_0 | Dis_HintNone | Dis_HintNoTailCall.

Inductive IRJumpKind : Type :=
| Ijk_0 | Ijk_INVALID | Ijk_Boring | Ijk_Call | Ijk_Ret | Ijk_NoDecode.

Inductive VexArch : Type :=
| VexArch_INVALID | VexArchX86 | VexArchAMD64 | VexArchARM | VexArchARM64
| VexArchRISCV64.

Record DisResult : Type := mkDisResult {
  len : Z;
  whatNext : DisWhatNext;
  hint : DisHint;
  jk_StopHere : IRJumpKind
}.

#[export] Instance DisWhatNext_eq_dec : EqDecision DisWhatNext.
Proof. solve_decision. Defined.
#[export] Instance IRJumpKind_eq_dec : EqDecision IRJumpKind.
Proof. solve_decision. Defined.
#[export] Instance VexArch_eq_dec : EqDecision VexArch.
Proof. solve_decision. Defined.

(** [vex_bzero(&dres, sizeof(dres))]. *)
Definition DisResult_zero : DisResult :=
  mkDisResult 0 Dis_whatNext_0 Dis_hint_0 Ijk_0.

(** ** The state the decoder works on *)

(** One call of [vex_printf]: the format and the arguments, as passed. *)
Inductive PrintfArg : Type :=
| Arg_int (z : Z)
| Arg_str (s : string).

Record Printed : Type := mkPrinted {
  format : string;
  args : list PrintfArg
}.

Record VexState : Type := mkVexState {
  dres : DisResult;
  irsb : IRSB;
  vex_traceflags : Z;
  vex_out : list Printed
}.

Definition M (A : Type) : Type := VexState -> Res (A * VexState).

#[export] Instance M_Monad : Monad M := {|
  ret := fun A a => fun s => Ok (a, s);
  bind := fun A B m k => fun s =>
    match m s with
    | Ok (a, s') => k a s'
    | Abort what => Abort what
    end
|}.

Definition get_state : M VexState := fun s => Ok (s, s).

Definition lift {A : Type} (r : Res A) : M A :=
  fun s => match r with Ok a => Ok (a, s) | Abort what => Abort what end.

Definition vassert (cond : bool) (what : string) : M unit :=
  fun s => if cond then Ok (tt, s) else Abort what.

Definition vassert_Res (cond : bool) (what : string) : Res unit :=
  if cond then Ok tt else Abort what.

Definition set_dres (d : DisResult) : M unit :=
  fun s => Ok (tt, mkVexState d (irsb s) (vex_traceflags s) (vex_out s)).

Definition set_irsb (bb : IRSB) : M unit :=
  fun s => Ok (tt, mkVexState (dres s) bb (vex_traceflags s) (vex_out s)).

(** [dres->len = v] and the like. *)
Definition set_len (v : Z) : M unit :=
  s <- get_state;;
  let d := dres s in
  set_dres (mkDisResult v (whatNext d) (hint d) (jk_StopHere d)).

Definition set_whatNext (v : DisWhatNext) : M unit :=
  s <- get_state;;
  let d := dres s in
  set_dres (mkDisResult (len d) v (hint d) (jk_StopHere d)).

Definition set_hint (v : DisHint) : M unit :=
  s <- get_state;;
  let d := dres s in
  set_dres (mkDisResult (len d) (whatNext d) v (jk_StopHere d)).

Definition set_jk_StopHere (v : IRJumpKind) : M unit :=
  s <- get_state;;
  let d := dres s in
  set_dres (mkDisResult (len d) (whatNext d) (hint d) v).

(** Modelled from the spec: [vex_printf] of [main_util.h] hands a line to
    the diagnostics channel and touches nothing else. *)
Definition vex_printf (fmt : string) (a : list PrintfArg) : M unit :=
  fun s => Ok (tt, mkVexState (dres s) (irsb s) (vex_traceflags s)
                              (vex_out s ++ [mkPrinted fmt a])).

(** A byte window holding the given bytes from offset 0 on, and zeros
    elsewhere. *)
Definition window (bytes : list byte) : Z -> byte :=
  fun i => if i <? 0 then x00%byte else default x00%byte (bytes !! Z.to_nat i).

(** ** The compressed load-upper-immediate encoding *)

(** The fields the quadrant-01 decoder takes from the word: the destination
    register, bits [11:7], and the immediate, bit 12 placed at position 17
    and bits [6:2] at positions [16:12]. *)
Definition C_LUI_rd (insn : Z) : Z := SLICE_UInt insn 11 7.

Definition C_LUI_nzimm (insn : Z) : Z :=
  Z.lor (shl_UInt (SLICE_UInt insn 12 12) 17) (shl_UInt (SLICE_UInt insn 6 2) 12).

(** The words the rule accepts: bits [15:13] are 011, the register is
    neither 0 nor 2 and the immediate is not zero. *)
Definition C_LUI_valid (insn : Z) : bool :=
  (SLICE_UInt insn 15 13 =? BITS3 0 1 1)
  && negb ((C_LUI_rd insn =? 0) || (C_LUI_rd insn =? 2)
           || (C_LUI_nzimm insn =? 0)).

(** The words some rule of some quadrant accepts. *)
Definition decodable (insn : Z) : bool :=
  (SLICE_UInt insn 1 0 =? X01) && C_LUI_valid insn.

(** The value [sx_to_64] computes, in closed form. *)
Definition sx_value (x n : Z) : Z :=
  if x <? 2 ^ (n - 1) then x else x + (2 ^ 64 - 2 ^ n).

(** The defaults [disInstr_RISCV64_WRK] starts from. *)
Definition DisResult_default : DisResult :=
  mkDisResult 4 Dis_Continue Dis_HintNone Ijk_INVALID.

(** What a run leaves apart from the diagnostics: the outcome of the run,
    the [DisResult] and the [IRSB]. *)
Definition visible {A : Type} (r : Res (A * VexState))
  : Res (A * DisResult * IRSB) :=
  match r with
  | Ok (a, s) => Ok (a, dres s, irsb s)
  | Abort what => Abort what
  end.

(** The state [disInstr_RISCV64] starts the worker in. *)
Definition zeroed (s : VexState) : VexState :=
  mkVexState DisResult_zero (irsb s) (vex_traceflags s) (vex_out s).

(** A decoder that breaks the contract of the quadrant decoders: it stores
    a length in [dres] and then reports failure. *)
Definition overwriting_decoder (insn : Z) (sigill_diag : bool) : M bool :=
  set_len 2;;
  ret false.

(** A layout of the guest state to run the decoder on examples: the
    registers 8 bytes apart from offset 16 on, the program counter after
    them, and tracing on bit 7 of the trace flags. *)
Definition sample_guest_x (i : Z) : Z := 16 + 8 * i.
Definition sample_guest_pc : Z := 272.
Definition sample_VEX_TRACE_FE : Z := 128.

(** A block with no statements yet, and the state around it. *)
Definition empty_IRSB : IRSB := mkIRSB [] [].
Definition initial_state (traceflags : Z) : VexState :=
  mkVexState DisResult_zero empty_IRSB traceflags [].

(** The states the worker leaves on [c.lui a0, 0x1] and on a word it does
    not decode, from [initial_state 0] and the sample layout. *)
Definition lui_a0_state : VexState :=
  mkVexState (mkDisResult 4 Dis_Continue Dis_HintNone Ijk_INVALID)
             (mkIRSB [] [IRStmt_Put 96 (IRExpr_Const (IRConst_U64 0x1000))])
             0 [].

Definition undecoded_state : VexState :=
  mkVexState (mkDisResult 4 Dis_Continue Dis_HintNone Ijk_INVALID)
             empty_IRSB 0 [].

(** Equality of strings is decidable: used to compare register names. *)
#[export] Instance string_eq_dec : EqDecision string := String.string_dec.

(** *** The binary spelling of a word *)

(** Bit [k] of a word as a digit. *)
Definition bit_char (insn k : Z) : ascii :=
  if Z.testbit insn k then "1"%char else "0"%char.

(** The four bits from [k] down. *)
Definition nibble_digits (insn k : Z) : list ascii :=
  [bit_char insn k; bit_char insn (k - 1); bit_char insn (k - 2);
   bit_char insn (k - 3)].

(** The eight bits from [k] down, an apostrophe between the nibbles. *)
Definition byte_digits (insn k : Z) : list ascii :=
  nibble_digits insn k ++ ["'"%char] ++ nibble_digits insn (k - 4).

(** The 32 bits of a word, most significant first, a space between the
    bytes. *)
Definition binary_dump (insn : Z) : list ascii :=
  byte_digits insn 31 ++ [" "%char] ++ byte_digits insn 23 ++ [" "%char]
  ++ byte_digits insn 15 ++ [" "%char] ++ byte_digits insn 7.

(** One pass of the loop that spells a word, with the digit to write given
    as a character code. *)
Definition dump_step (digit : Z) (st : Z * list Z) (i : Z) : Z * list Z :=
  let '(j, buf) := st in
  let '(j, buf) :=
    if 0 <? i then
      if Z.land i 7 =? 0 then (j + 1, <[Z.to_nat j := char_code " "]> buf)
      else if Z.land i 3 =? 0
           then (j + 1, <[Z.to_nat j := char_code "'"]> buf)
           else (j, buf)
    else (j, buf) in
  (j + 1, <[Z.to_nat j := digit]> buf).

(** The states [disInstr_RISCV64] leaves, from [initial_state 0] and the
    sample layout, on [c.lui a0, 0x1] at [0x1000] without diagnostics, and
    on the reserved [c.lui zero, 0x1] with [sigill_diag] set. *)
Definition lui_a0_final_state : VexState :=
  mkVexState (mkDisResult 4 Dis_Continue Dis_HintNone Ijk_INVALID)
             (mkIRSB [] [IRStmt_Put 96 (IRExpr_Const (IRConst_U64 0x1000));
                         IRStmt_Put 272 (IRExpr_Const (IRConst_U64 0x1004))])
             0 [].

Definition undecoded_final_state : VexState :=
  mkVexState (mkDisResult 0 Dis_StopHere Dis_HintNone Ijk_NoDecode)
             (mkIRSB [] [IRStmt_Put 272 (IRExpr_Const (IRConst_U64 0x1000))])
             0
             [mkPrinted "RISCV64 front end: compressed_01\n" [];
              mkPrinted "disInstr(riscv64): unhandled instruction 0x%08x\n"
                        [Arg_int 0x6005];
              mkPrinted "disInstr(riscv64): %s\n"
                        [Arg_str "0000'0000 0000'0000 0110'0000 0000'0101"]].

Section Decoder.

(** The layout of [VexGuestRISCV64State] ([libvex_guest_riscv64.h]) and the
    trace bit [VEX_TRACE_FE] ([libvex.h]) are fixed outside the translated
    file: [guest_x i] stands for [offsetof(VexGuestRISCV64State, guest_x<i>)]
    and [guest_pc] for [offsetof(VexGuestRISCV64State, guest_pc)]. *)
Variable guest_x : Z -> Z.
Variable guest_pc : Z.
Variable VEX_TRACE_FE : Z.

(** *** Debugging output *)

(** The macro [DIP]: the arguments are evaluated only when tracing is on. *)
Definition DIP (fmt : string) (a : M (list PrintfArg)) : M unit :=
  s <- get_state;;
  if negb (Z.land (vex_traceflags s) VEX_TRACE_FE =? 0) then
    a <- a;;
    vex_printf fmt a
  else ret tt.

(** *** Helpers for constructing IR *)

(** Add a statement to the list held by irsb. *)
Definition stmt (st : IRStmt) : M unit :=
  s <- get_state;;
  set_irsb (addStmtToIRSB (irsb s) st).

(** Create an expression to produce a constant. *)
Definition mkU64 (i : Z) : IRExpr := IRExpr_Const (IRConst_U64 i).

(** *** Offsets of various parts of the riscv64 guest state *)

Definition OFFB_X0 : Z := guest_x 0.
Definition OFFB_X1 : Z := guest_x 1.
Definition OFFB_X2 : Z := guest_x 2.
Definition OFFB_X3 : Z := guest_x 3.
Definition OFFB_X4 : Z := guest_x 4.
Definition OFFB_X5 : Z := guest_x 5.
Definition OFFB_X6 : Z := guest_x 6.
Definition OFFB_X7 : Z := guest_x 7.
Definition OFFB_X8 : Z := guest_x 8.
Definition OFFB_X9 : Z := guest_x 9.
Definition OFFB_X10 : Z := guest_x 10.
Definition OFFB_X11 : Z := guest_x 11.
Definition OFFB_X12 : Z := guest_x 12.
Definition OFFB_X13 : Z := guest_x 13.
Definition OFFB_X14 : Z := guest_x 14.
Definition OFFB_X15 : Z := guest_x 15.
Definition OFFB_X16 : Z := guest_x 16.
Definition OFFB_X17 : Z := guest_x 17.
Definition OFFB_X18 : Z := guest_x 18.
Definition OFFB_X19 : Z := guest_x 19.
Definition OFFB_X20 : Z := guest_x 20.
Definition OFFB_X21 : Z := guest_x 21.
Definition OFFB_X22 : Z := guest_x 22.
Definition OFFB_X23 : Z := guest_x 23.
Definition OFFB_X24 : Z := guest_x 24.
Definition OFFB_X25 : Z := guest_x 25.
Definition OFFB_X26 : Z := guest_x 26.
Definition OFFB_X27 : Z := guest_x 27.
Definition OFFB_X28 : Z := guest_x 28.
Definition OFFB_X29 : Z := guest_x 29.
Definition OFFB_X30 : Z := guest_x 30.
Definition OFFB_X31 : Z := guest_x 31.
Definition OFFB_PC : Z := guest_pc.

(** *** Integer registers *)

Definition offsetIReg64 (iregNo : Z) : Res Z :=
  match iregNo with
  | 0 => Ok OFFB_X0
  | 1 => Ok OFFB_X1
  | 2 => Ok OFFB_X2
  | 3 => Ok OFFB_X3
  | 4 => Ok OFFB_X4
  | 5 => Ok OFFB_X5
  | 6 => Ok OFFB_X6
  | 7 => Ok OFFB_X7
  | 8 => Ok OFFB_X8
  | 9 => Ok OFFB_X9
  | 10 => Ok OFFB_X10
  | 11 => Ok OFFB_X11
  | 12 => Ok OFFB_X12
  | 13 => Ok OFFB_X13
  | 14 => Ok OFFB_X14
  | 15 => Ok OFFB_X15
  | 16 => Ok OFFB_X16
  | 17 => Ok OFFB_X17
  | 18 => Ok OFFB_X18
  | 19 => Ok OFFB_X19
  | 20 => Ok OFFB_X20
  | 21 => Ok OFFB_X21
  | 22 => Ok OFFB_X22
  | 23 => Ok OFFB_X23
  | 24 => Ok OFFB_X24
  | 25 => Ok OFFB_X25
  | 26 => Ok OFFB_X26
  | 27 => Ok OFFB_X27
  | 28 => Ok OFFB_X28
  | 29 => Ok OFFB_X29
  | 30 => Ok OFFB_X30
  | 31 => Ok OFFB_X31
  | _ => Abort "0"
  end.

Definition names : list string :=
  ["zero"; "ra"; "sp"; "gp"; "tp";  "t0";  "t1"; "t2"; "s0"; "s1"; "a0";
   "a1";   "a2"; "a3"; "a4"; "a5";  "a6";  "a7"; "s2"; "s3"; "s4"; "s5";
   "s6";   "s7"; "s8"; "s9"; "s10"; "s11"; "t3"; "t4"; "t5"; "t6"]%string.

(** Obtain ABI name of a register. *)
Definition nameIReg64 (iregNo : Z) : Res string :=
  vassert_Res (iregNo <? 32) "iregNo < 32";;
  ret (default EmptyString (names !! Z.to_nat iregNo)).

Definition getIReg64 (iregNo : Z) : Res IRExpr :=
  vassert_Res (iregNo <? 32) "iregNo < 32";;
  off <- offsetIReg64 iregNo;;
  ret (IRExpr_Get off Ity_I64).

Definition putIReg64 (iregNo : Z) (e : IRExpr) : M unit :=
  s <- get_state;;
  vassert (bool_decide (typeOfIRExpr (tyenv (irsb s)) e = Ity_I64))
          "typeOfIRExpr(irsb->tyenv, e) == Ity_I64";;
  off <- lift (offsetIReg64 iregNo);;
  stmt (IRStmt_Put off e).

(** *** Disassemble a single instruction *)

Definition dis_RISCV64_compressed_00 (insn : Z) (sigill_diag : bool)
  : M bool :=
  (* TODO *)
  (if sigill_diag then
     vex_printf "RISCV64 front end: compressed_00\n" []
   else ret tt);;
  ret false.

Definition dis_RISCV64_compressed_01 (insn : Z) (sigill_diag : bool)
  : M bool :=
  let INSN := fun _bMax _bMin => SLICE_UInt insn _bMax _bMin in
  (* ---------------- lui rd, nzimm[17:12] ----------------- *)
  matched <-
    (if INSN 15 13 =? BITS3 0 1 1 then
       let rd := INSN 11 7 in
       let nzimm := Z.lor (shl_UInt (INSN 12 12) 17) (shl_UInt (INSN 6 2) 12) in
       if (rd =? 0) || (rd =? 2) || (nzimm =? 0) then
         (* Invalid C.LUI, fall through. *)
         ret false
       else
         imm <- lift (sx_to_64 nzimm 18);;
         putIReg64 rd (mkU64 imm);;
         DIP "lui %s, 0x%x\n"
             (name <- lift (nameIReg64 rd);;
              ret [Arg_str name; Arg_int (Z.shiftr nzimm 12)]);;
         ret true
     else ret false);;
  if matched : bool then ret true
  else
    (if sigill_diag then
       vex_printf "RISCV64 front end: compressed_01\n" []
     else ret tt);;
    ret false.

Definition dis_RISCV64_compressed_10 (insn : Z) (sigill_diag : bool)
  : M bool :=
  (* TODO *)
  (if sigill_diag then
     vex_printf "RISCV64 front end: compressed_10\n" []
   else ret tt);;
  ret false.

(** The check made when the next-level down decoders failed: [dres] must
    not have been changed. *)
Definition check_dres_unchanged (ok : bool) : M unit :=
  if negb ok then
    s <- get_state;;
    vassert (bool_decide (whatNext (dres s) = Dis_Continue))
            "dres->whatNext == Dis_Continue";;
    vassert (len (dres s) =? 4) "dres->len == 4";;
    vassert (bool_decide (jk_StopHere (dres s) = Ijk_INVALID))
            "dres->jk_StopHere == Ijk_INVALID"
  else ret tt.

(** Parse insn[1:0] to determine whether the instruction is 16-bit
    (compressed) or 32-bit, and hand it to the decoder of its quadrant. *)
Definition dispatch_quadrant (insn : Z) (sigill_diag : bool) : M bool :=
  let INSN := fun _bMax _bMin => SLICE_UInt insn _bMax _bMin in
  let ok := false in
  let quadrant := INSN 1 0 in
  if quadrant =? X00 then dis_RISCV64_compressed_00 insn sigill_diag
  else if quadrant =? X01 then dis_RISCV64_compressed_01 insn sigill_diag
  else if quadrant =? X10 then dis_RISCV64_compressed_10 insn sigill_diag
  else if quadrant =? X11 then (* TODO *) ret ok
  else vassert false "0";; (* Can't happen. *) ret ok.

(** The body of [disInstr_RISCV64_WRK], with the decoder the switch on
    insn[1:0] hands the word to as an argument [dispatch]: the decoders of
    the quadrants are the places where rules are added, and what the worker
    does around them does not depend on which rules there are. *)
Definition disInstr_RISCV64_WRK_with (dispatch : Z -> bool -> M bool)
    (guest_instr : Z -> byte) (guest_pc_curr_instr : Z) (sigill_diag : bool)
  : M bool :=
  (* Set result defaults. *)
  set_whatNext Dis_Continue;;
  set_len 4;;
  set_jk_StopHere Ijk_INVALID;;
  set_hint Dis_HintNone;;
  (* Read the instruction word. *)
  let insn := fst (getInsn guest_instr) in
  DIP "\t(riscv64) 0x%llx:  " (ret [Arg_int (to_ULong guest_pc_curr_instr)]);;
  vassert (0 =? Z.land guest_pc_curr_instr 3)
          "0 == (guest_pc_curr_instr & 3ULL)";;
  (* Spot "Special" instructions: TODO *)
  (* Main riscv64 instruction decoder starts here. *)
  ok <- dispatch insn sigill_diag;;
  (* If the next-level down decoders failed, make sure dres didn't get
     changed. *)
  check_dres_unchanged ok;;
  ret ok.

(** Disassemble a single riscv64 instruction into IR. Returns True iff the
    instruction was decoded, in which case *dres will be set accordingly, or
    False, in which case *dres should be ignored by the caller. *)
Definition disInstr_RISCV64_WRK (guest_instr : Z -> byte)
    (guest_pc_curr_instr : Z) (sigill_diag : bool) : M bool :=
  disInstr_RISCV64_WRK_with dispatch_quadrant guest_instr guest_pc_curr_instr
                            sigill_diag.

(** *** Top-level fn *)

(** One pass of the loop that spells the instruction word in binary:
    [j] is the next free place of [buf]. *)
Definition dump_bit (insn : Z) (st : Z * list Z) (i : Z) : Z * list Z :=
  let '(j, buf) := st in
  let '(j, buf) :=
    if 0 <? i then
      if Z.land i 7 =? 0 then (j + 1, <[Z.to_nat j := char_code " "]> buf)
      else if Z.land i 3 =? 0 then (j + 1, <[Z.to_nat j := char_code "'"]> buf)
      else (j, buf)
    else (j, buf) in
  (j + 1,
   <[Z.to_nat j := if negb (Z.land insn (to_UInt (Z.shiftl 1 (31 - i))) =? 0)
                   then char_code "1" else char_code "0"]> buf).

(** [UChar buf[64]], zeroed and then filled by the loop over
    [i = 0 .. 31]. *)
Definition dump_insn (insn : Z) : list Z :=
  snd (fold_left (dump_bit insn) (map Z.of_nat (seq 0 32)) (0, replicate 64 0)).

(** The text a [%s] conversion takes from a buffer: the characters before
    the first NUL. *)
Fixpoint c_string (buf : list Z) : string :=
  match buf with
  | [] => EmptyString
  | c :: rest =>
      if c =? 0 then EmptyString
      else String (ascii_of_N (Z.to_N c)) (c_string rest)
  end.

(** All decode successes end up here. *)
Definition decode_success (guest_IP : Z) : M unit :=
  s <- get_state;;
  vassert ((len (dres s) =? 4) || (len (dres s) =? 20))
          "dres.len == 4 || dres.len == 20";;
  match whatNext (dres s) with
  | Dis_Continue =>
      stmt (IRStmt_Put OFFB_PC (mkU64 (add_Addr guest_IP (len (dres s)))))
  | Dis_StopHere => ret tt
  | _ => vassert false "0"
  end;;
  DIP "\n" (ret []).

(** All decode failures end up here. *)
Definition decode_failure (guest_code : Z -> byte) (delta guest_IP : Z)
    (sigill_diag : bool) : M unit :=
  (if sigill_diag then
     let insn := fst (getInsn (offset_ptr guest_code delta)) in
     let buf := dump_insn insn in
     vex_printf "disInstr(riscv64): unhandled instruction 0x%08x\n"
                [Arg_int insn];;
     vex_printf "disInstr(riscv64): %s\n" [Arg_str (c_string buf)]
   else ret tt);;
  (* Tell the dispatcher that this insn cannot be decoded, and so has not
     been executed, and (is currently) the next to be executed. *)
  stmt (IRStmt_Put OFFB_PC (mkU64 (to_ULong guest_IP)));;
  set_len 0;;
  set_whatNext Dis_StopHere;;
  set_jk_StopHere Ijk_NoDecode.

(** Disassemble a single instruction into IR. The instruction is located in
    host memory at &guest_code[delta].  The block [irsb] is the one of the
    state; [archinfo], [abiinfo] and [host_endness] are not used. *)
Definition disInstr_RISCV64 (guest_code : Z -> byte) (delta guest_IP : Z)
    (guest_arch : VexArch) (sigill_diag : bool) : M DisResult :=
  set_dres DisResult_zero;;
  vassert (bool_decide (guest_arch = VexArchRISCV64))
          "guest_arch == VexArchRISCV64";;
  (* Try to decode. *)
  ok <- disInstr_RISCV64_WRK (offset_ptr guest_code delta) guest_IP
                             sigill_diag;;
  (if ok : bool then decode_success guest_IP
   else decode_failure guest_code delta guest_IP sigill_diag);;
  s <- get_state;;
  ret (dres s).

(** *** Summaries used by the properties *)

(** The statement the load-upper-immediate rule appends. *)
Definition C_LUI_stmt (insn : Z) : IRStmt :=
  IRStmt_Put (guest_x (C_LUI_rd insn))
             (mkU64 (sx_value (C_LUI_nzimm insn) 18)).

(** What [disInstr_RISCV64_WRK] leaves behind, apart from the diagnostics. *)
Definition disInstr_RISCV64_WRK_visible (guest_instr : Z -> byte)
    (guest_pc_curr_instr : Z) (bb : IRSB) : Res (bool * DisResult * IRSB) :=
  let insn := fst (getInsn guest_instr) in
  if 0 =? Z.land guest_pc_curr_instr 3 then
    Ok (decodable insn, DisResult_default,
        if decodable insn then addStmtToIRSB bb (C_LUI_stmt insn) else bb)
  else Abort "0 == (guest_pc_curr_instr & 3ULL)".

(** The outcome and the statements of a decode failure. *)
Definition DisResult_NoDecode : DisResult :=
  mkDisResult 0 Dis_StopHere Dis_HintNone Ijk_NoDecode.

(** Everything [disInstr_RISCV64] leaves behind, apart from the
    diagnostics, as a function of its arguments and of the block it was
    given. *)
Definition disInstr_RISCV64_visible (guest_code : Z -> byte)
    (delta guest_IP : Z) (guest_arch : VexArch) (bb : IRSB)
  : Res (DisResult * DisResult * IRSB) :=
  let insn := fst (getInsn (offset_ptr guest_code delta)) in
  if bool_decide (guest_arch = VexArchRISCV64) then
    if 0 =? Z.land guest_IP 3 then
      if decodable insn then
        Ok (DisResult_default, DisResult_default,
            addStmtToIRSB (addStmtToIRSB bb (C_LUI_stmt insn))
              (IRStmt_Put OFFB_PC (mkU64 (add_Addr guest_IP 4))))
      else
        Ok (DisResult_NoDecode, DisResult_NoDecode,
            addStmtToIRSB bb (IRStmt_Put OFFB_PC (mkU64 (to_ULong guest_IP))))
    else Abort "0 == (guest_pc_curr_instr & 3ULL)"
  else Abort "guest_arch == VexArchRISCV64".

(** *** The diagnostics, line by line *)

(** Whether the front-end trace bit is set in [vex_traceflags]. *)
Definition tracing (s : VexState) : bool :=
  negb (Z.land (vex_traceflags s) VEX_TRACE_FE =? 0).

(** The line a quadrant decoder prints when it gives up; the 32-bit
    quadrant prints none. *)
Definition quadrant_line (insn : Z) : list Printed :=
  let quadrant := SLICE_UInt insn 1 0 in
  if quadrant =? X00 then
    [mkPrinted "RISCV64 front end: compressed_00\n" []]
  else if quadrant =? X01 then
    [mkPrinted "RISCV64 front end: compressed_01\n" []]
  else if quadrant =? X10 then
    [mkPrinted "RISCV64 front end: compressed_10\n" []]
  else [].

(** The disassembly line of a decoded load-upper-immediate. *)
Definition C_LUI_line (insn : Z) : Printed :=
  mkPrinted "lui %s, 0x%x\n"
    [Arg_str (default EmptyString (names !! Z.to_nat (C_LUI_rd insn)));
     Arg_int (Z.shiftr (C_LUI_nzimm insn) 12)].

(** The lines [disInstr_RISCV64_WRK] prints for a word at a program
    counter, with tracing [tr] and [sigill_diag]. *)
Definition disInstr_RISCV64_WRK_output (tr sigill_diag : bool)
    (guest_pc_curr_instr insn : Z) : list Printed :=
  (if tr then
     [mkPrinted "\t(riscv64) 0x%llx:  "
                [Arg_int (to_ULong guest_pc_curr_instr)]]
   else [])
  ++ (if decodable insn then (if tr then [C_LUI_line insn] else [])
      else if sigill_diag then quadrant_line insn else []).

(** The lines [disInstr_RISCV64] prints. *)
Definition disInstr_RISCV64_output (tr sigill_diag : bool)
    (guest_IP insn : Z) : list Printed :=
  disInstr_RISCV64_WRK_output tr sigill_diag guest_IP insn
  ++ (if decodable insn then (if tr then [mkPrinted "\n" []] else [])
      else if sigill_diag then
        [mkPrinted "disInstr(riscv64): unhandled instruction 0x%08x\n"
                   [Arg_int insn];
         mkPrinted "disInstr(riscv64): %s\n"
                   [Arg_str (c_string (dump_insn insn))]]
      else []).

(** * Properties *)

(** ** Machine integers *)

Lemma to_UInt_small (z : Z) : 0 <= z < 2 ^ 32 -> to_UInt z = z.
Proof. intros H. unfold to_UInt. apply Z.mod_small. exact H. Qed.

Lemma to_ULong_small (z : Z) : 0 <= z < 2 ^ 64 -> to_ULong z = z.
Proof. intros H. unfold to_ULong. apply Z.mod_small. exact H. Qed.

Lemma to_ULong_range (z : Z) : 0 <= to_ULong z < 2 ^ 64.
Proof. unfold to_ULong. apply Z.mod_pos_bound. lia. Qed.

Lemma pow2_le_mono (a b : Z) : 0 <= a <= b -> 2 ^ a <= 2 ^ b.
Proof. intros H. apply Z.pow_le_mono_r; lia. Qed.

Lemma pow2_split (a b : Z) : 0 <= a -> 0 <= b -> 2 ^ (a + b) = 2 ^ a * 2 ^ b.
Proof. intros Ha Hb. apply Z.pow_add_r; assumption. Qed.

(** ** Bit-field extraction *)

Lemma SLICE_UInt_mask (k : Z) :
  0 <= k <= 32 ->
  to_UInt (to_ULong (shl_ULong 1 k - 1)) = Z.ones k.
Proof.
  intros Hk. unfold shl_ULong.
  rewrite Z.shiftl_1_l, Z.ones_equiv, <- Z.sub_1_r.
  assert (H32 : 0 < 2 ^ k <= 2 ^ 32).
  { split; [apply Z.pow_pos_nonneg; lia | apply pow2_le_mono; lia]. }
  rewrite (to_ULong_small (2 ^ k)) by lia.
  rewrite to_ULong_small by lia.
  apply to_UInt_small. lia.
Qed.

(** Claim C7.  For every 32-bit word and all bit positions with
    0 <= lowBit <= highBit < 32, [SLICE_UInt word highBit lowBit] is
    [word >> lowBit] masked to [highBit - lowBit + 1] bits, that is the
    quotient of [word] by [2 ^ lowBit] reduced modulo
    [2 ^ (highBit - lowBit + 1)], and it is strictly less than
    [2 ^ (highBit - lowBit + 1)]. *)
Theorem SLICE_UInt_extracts (word highBit lowBit : Z) :
  0 <= word < 2 ^ 32 ->
  0 <= lowBit <= highBit -> highBit < 32 ->
  SLICE_UInt word highBit lowBit
    = Z.land (Z.shiftr word lowBit) (2 ^ (highBit - lowBit + 1) - 1)
  /\ SLICE_UInt word highBit lowBit
    = (word / 2 ^ lowBit) mod 2 ^ (highBit - lowBit + 1)
  /\ 0 <= SLICE_UInt word highBit lowBit < 2 ^ (highBit - lowBit + 1).
Proof.
  intros Hw Hb Hh. unfold SLICE_UInt.
  rewrite SLICE_UInt_mask by lia.
  rewrite (to_UInt_small word) by exact Hw.
  rewrite Z.land_ones by lia.
  rewrite Z.shiftr_div_pow2 by lia.
  repeat split.
  - rewrite <- Z.land_ones by lia. rewrite Z.ones_equiv, <- Z.sub_1_r.
    reflexivity.
  - apply Z.mod_pos_bound. apply Z.pow_pos_nonneg; lia.
  - apply Z.mod_pos_bound. apply Z.pow_pos_nonneg; lia.
Qed.

Lemma SLICE_UInt_range (u hi lo : Z) :
  0 <= lo <= hi -> hi < 32 ->
  0 <= SLICE_UInt u hi lo < 2 ^ (hi - lo + 1).
Proof.
  intros Hb Hh. unfold SLICE_UInt.
  rewrite SLICE_UInt_mask by lia.
  rewrite Z.land_ones by lia.
  apply Z.mod_pos_bound. apply Z.pow_pos_nonneg; lia.
Qed.

(** ** Sign extension *)

Lemma to_Long_small (z : Z) : 0 <= z < 2 ^ 63 -> to_Long z = z.
Proof.
  intros H. unfold to_Long. rewrite to_ULong_small by lia.
  destruct (Z.ltb_spec z (2 ^ 63)); lia.
Qed.

Lemma to_Long_high (z : Z) : 2 ^ 63 <= z < 2 ^ 64 -> to_Long z = z - 2 ^ 64.
Proof.
  intros H. unfold to_Long. rewrite to_ULong_small by lia.
  destruct (Z.ltb_spec z (2 ^ 63)); lia.
Qed.

Lemma to_Long_to_ULong (z : Z) : to_Long (to_ULong z) = to_Long z.
Proof.
  unfold to_Long. rewrite (to_ULong_small (to_ULong z)); [reflexivity|].
  apply to_ULong_range.
Qed.

Lemma to_ULong_neg (z : Z) : - 2 ^ 64 <= z < 0 -> to_ULong z = z + 2 ^ 64.
Proof.
  intros H. unfold to_ULong.
  rewrite <- (Z.mod_add z 1 (2 ^ 64)) by lia.
  apply Z.mod_small. lia.
Qed.

Lemma sx_powers (n : Z) :
  1 < n < 64 ->
  0 < 2 ^ (64 - n) /\ 2 ^ n * 2 ^ (64 - n) = 2 ^ 64
  /\ 2 ^ (n - 1) * 2 ^ (64 - n) = 2 ^ 63 /\ 2 * 2 ^ (n - 1) = 2 ^ n
  /\ 0 < 2 ^ (n - 1).
Proof.
  intros Hn. repeat split.
  - apply Z.pow_pos_nonneg; lia.
  - rewrite <- pow2_split by lia. f_equal. lia.
  - rewrite <- pow2_split by lia. f_equal. lia.
  - replace n with (1 + (n - 1)) at 2 by lia.
    rewrite pow2_split by lia. reflexivity.
  - apply Z.pow_pos_nonneg; lia.
Qed.

Lemma sx_signed (x n : Z) :
  1 < n < 64 -> 0 <= x < 2 ^ n ->
  Z.shiftr (to_Long (shl_ULong x (64 - n))) (64 - n)
  = if x <? 2 ^ (n - 1) then x else x - 2 ^ n.
Proof.
  intros Hn Hx.
  destruct (sx_powers n Hn) as (Hk & H64 & H63 & Hhalf & Hpos).
  unfold shl_ULong. rewrite Z.shiftl_mul_pow2 by lia.
  rewrite to_Long_to_ULong, Z.shiftr_div_pow2 by lia.
  assert (Hup : x * 2 ^ (64 - n) < 2 ^ n * 2 ^ (64 - n))
    by (apply Z.mul_lt_mono_pos_r; lia).
  assert (H0 : 0 <= x * 2 ^ (64 - n)) by (apply Z.mul_nonneg_nonneg; lia).
  destruct (Z.ltb_spec x (2 ^ (n - 1))) as [Hlt | Hge].
  - assert (x * 2 ^ (64 - n) < 2 ^ (n - 1) * 2 ^ (64 - n))
      by (apply Z.mul_lt_mono_pos_r; lia).
    rewrite to_Long_small by lia. apply Z.div_mul. lia.
  - assert (2 ^ (n - 1) * 2 ^ (64 - n) <= x * 2 ^ (64 - n))
      by (apply Z.mul_le_mono_nonneg_r; lia).
    rewrite to_Long_high by lia.
    replace (x * 2 ^ (64 - n) - 2 ^ 64) with ((x - 2 ^ n) * 2 ^ (64 - n))
      by lia.
    apply Z.div_mul. lia.
Qed.

Lemma sx_to_64_value (x n : Z) :
  1 < n < 64 -> 0 <= x < 2 ^ n -> sx_to_64 x n = Ok (sx_value x n).
Proof.
  intros Hn Hx. unfold sx_to_64, sx_value.
  destruct (Z.ltb_spec 1 n); [|lia]. destruct (Z.ltb_spec n 64); [|lia].
  cbn [andb]. f_equal. rewrite sx_signed by assumption.
  destruct (sx_powers n Hn) as (Hk & H64 & H63 & Hhalf & Hpos).
  assert (2 ^ n <= 2 ^ 63) by (apply pow2_le_mono; lia).
  destruct (Z.ltb_spec x (2 ^ (n - 1))).
  - apply to_ULong_small. lia.
  - rewrite to_ULong_neg by lia. lia.
Qed.

Lemma testbit_below_pow2 (x m i : Z) :
  0 <= x < 2 ^ m -> 0 <= m <= i -> Z.testbit x i = false.
Proof.
  intros Hx Hi.
  destruct (Z.eq_dec x 0) as [-> | Hne]; [apply Z.bits_0|].
  apply Z.bits_above_log2; [lia|].
  apply Z.lt_le_trans with m; [|lia].
  apply Z.log2_lt_pow2; lia.
Qed.

Lemma testbit_top (x n : Z) :
  1 < n -> 2 ^ (n - 1) <= x < 2 ^ n -> Z.testbit x (n - 1) = true.
Proof.
  intros Hn Hx.
  assert (Hl : Z.log2 x = n - 1).
  { apply Z.log2_unique; [lia|].
    replace (Z.succ (n - 1)) with n by lia. exact Hx. }
  rewrite <- Hl. apply Z.bit_log2.
  assert (0 < 2 ^ (n - 1)) by (apply Z.pow_pos_nonneg; lia). lia.
Qed.

Lemma sx_value_bits (x n i : Z) :
  1 < n < 64 -> 0 <= x < 2 ^ n -> 0 <= i < 64 ->
  Z.testbit (sx_value x n) i
  = if i <? n then Z.testbit x i else Z.testbit x (n - 1).
Proof.
  intros Hn Hx Hi. unfold sx_value.
  destruct (sx_powers n Hn) as (Hk & H64 & H63 & Hhalf & Hpos).
  destruct (Z.ltb_spec x (2 ^ (n - 1))) as [Hlt | Hge].
  - destruct (Z.ltb_spec i n); [reflexivity|].
    rewrite (testbit_below_pow2 x (n - 1) i) by lia.
    rewrite (testbit_below_pow2 x (n - 1) (n - 1)) by lia. reflexivity.
  - replace (x + (2 ^ 64 - 2 ^ n)) with (x + Z.ones (64 - n) * 2 ^ n).
    2:{ rewrite Z.ones_equiv, <- Z.sub_1_r. lia. }
    destruct (Z.ltb_spec i n) as [Hin | Hin].
    + rewrite <- (Z.mod_pow2_bits_low _ n i) by lia.
      rewrite Z.mod_add by lia.
      apply Z.mod_pow2_bits_low. lia.
    + rewrite testbit_top by lia.
      replace i with ((i - n) + n) by lia.
      rewrite <- Z.div_pow2_bits by lia.
      rewrite Z.div_add by lia.
      rewrite Z.div_small by lia. cbn [Z.add].
      apply Z.ones_spec_low. lia.
Qed.

(** Claim C6.  For every width with 1 < width < 64 and every value in
    [0, 2 ^ width), [sx_to_64 value width] passes its assertion and returns
    a 64-bit pattern [r] whose signed reading is the reference formula
    [((value << (64 - width)) as signed) >> (64 - width)]; bits
    [width-1 .. 0] of [r] are those of [value] and bits [63 .. width] all
    equal bit [width - 1] of [value]. *)
Theorem sx_to_64_sign_extends (value width : Z) :
  1 < width < 64 ->
  0 <= value < 2 ^ width ->
  exists r : Z,
    sx_to_64 value width = Ok r
    /\ 0 <= r < 2 ^ 64
    /\ to_Long r = signExtend_reference value width
    /\ (forall i : Z, 0 <= i < width -> Z.testbit r i = Z.testbit value i)
    /\ (forall i : Z, width <= i < 64 ->
                      Z.testbit r i = Z.testbit value (width - 1)).
Proof.
  intros Hn Hx. exists (sx_value value width).
  split; [apply sx_to_64_value; assumption|].
  destruct (sx_powers width Hn) as (Hk & H64 & H63 & Hhalf & Hpos).
  assert (Hw : 2 ^ width <= 2 ^ 63) by (apply pow2_le_mono; lia).
  assert (Hr : 0 <= sx_value value width < 2 ^ 64).
  { unfold sx_value. destruct (Z.ltb_spec value (2 ^ (width - 1))); lia. }
  split; [exact Hr|]. split.
  - unfold signExtend_reference.
    rewrite <- (to_Long_to_ULong (Z.shiftl value (64 - width))).
    change (to_ULong (Z.shiftl value (64 - width)))
      with (shl_ULong value (64 - width)).
    rewrite sx_signed by assumption.
    unfold sx_value.
    destruct (Z.ltb_spec value (2 ^ (width - 1))).
    + apply to_Long_small. lia.
    + rewrite to_Long_high by lia. lia.
  - split; intros i Hi.
    + rewrite sx_value_bits by lia.
      destruct (Z.ltb_spec i width); [reflexivity | lia].
    + rewrite sx_value_bits by lia.
      destruct (Z.ltb_spec i width); [lia | reflexivity].
Qed.

(** ** The instruction reader *)

Lemma UChar_val_range (b : byte) : 0 <= UChar_val b < 2 ^ 8.
Proof.
  unfold UChar_val. pose proof (Byte.to_N_bounded b) as H.
  change (2 ^ 8) with 256. lia.
Qed.

Lemma lor_shl (a b k : Z) :
  0 <= k -> 0 <= b < 2 ^ k -> Z.lor (Z.shiftl a k) b = 2 ^ k * a + b.
Proof.
  intros Hk Hb. rewrite Z.shiftl_mul_pow2 by lia.
  rewrite <- Z.add_nocarry_lor; [lia|].
  apply Z.bits_inj'. intros i Hi.
  rewrite Z.land_spec, Z.bits_0.
  destruct (Z.ltb_spec i k).
  - rewrite Z.mul_pow2_bits_low by lia. reflexivity.
  - rewrite (testbit_below_pow2 b k i) by lia. apply andb_false_r.
Qed.

Lemma lor_shl8 (a b : Z) :
  0 <= b < 2 ^ 8 -> Z.lor (Z.shiftl a 8) b = 2 ^ 8 * a + b.
Proof. intros Hb. apply lor_shl; [lia | exact Hb]. Qed.

Lemma getInsn_compressed (p : Z -> byte) :
  Z.land (UChar_val (p 0)) 3 <> 3 ->
  getInsn p = (UChar_val (p 0) + 2 ^ 8 * UChar_val (p 1), [0; 1; 0]).
Proof.
  intros Hc. unfold getInsn. cbn [bind ret Fetch_Monad deref].
  destruct (Z.eqb_spec (Z.land (UChar_val (p 0)) 3) 3); [contradiction|].
  cbn [negb app]. f_equal.
  pose proof (UChar_val_range (p 0)). pose proof (UChar_val_range (p 1)).
  change (shl_UInt 0 8) with 0. rewrite Z.lor_0_l.
  unfold shl_UInt. change (2 ^ 8) with 256 in *.
  rewrite Z.shiftl_mul_pow2 by lia. change (2 ^ 8) with 256.
  rewrite to_UInt_small by lia.
  rewrite <- (Z.shiftl_mul_pow2 _ 8) by lia. rewrite lor_shl8; lia.
Qed.

Lemma getInsn_full (p : Z -> byte) :
  Z.land (UChar_val (p 0)) 3 = 3 ->
  getInsn p
  = (UChar_val (p 0) + 2 ^ 8 * UChar_val (p 1) + 2 ^ 16 * UChar_val (p 2)
     + 2 ^ 24 * UChar_val (p 3), [0; 3; 2; 1; 0]).
Proof.
  intros Hc. unfold getInsn. cbn [bind ret Fetch_Monad deref].
  destruct (Z.eqb_spec (Z.land (UChar_val (p 0)) 3) 3); [|contradiction].
  cbn [negb app]. f_equal.
  pose proof (UChar_val_range (p 0)). pose proof (UChar_val_range (p 1)).
  pose proof (UChar_val_range (p 2)). pose proof (UChar_val_range (p 3)).
  change (shl_UInt 0 8) with 0. rewrite Z.lor_0_l.
  unfold shl_UInt.
  assert (Hs : forall a, 0 <= a < 2 ^ 24 -> to_UInt (Z.shiftl a 8) = Z.shiftl a 8).
  { intros a Ha. apply to_UInt_small. rewrite Z.shiftl_mul_pow2 by lia.
    change (2 ^ 24) with 16777216 in Ha. lia. }
  rewrite (Hs (UChar_val (p 3))) by lia.
  rewrite (lor_shl8 (UChar_val (p 3))) by assumption.
  rewrite (Hs (2 ^ 8 * UChar_val (p 3) + UChar_val (p 2))) by lia.
  rewrite (lor_shl8 (2 ^ 8 * UChar_val (p 3) + UChar_val (p 2)))
    by assumption.
  rewrite Hs by lia.
  rewrite lor_shl8 by assumption. lia.
Qed.

(** The word read depends on the four bytes at offsets 0 to 3 and on
    nothing else. *)
Lemma getInsn_window (p q : Z -> byte) :
  (forall i : Z, 0 <= i <= 3 -> p i = q i) -> getInsn p = getInsn q.
Proof.
  intros H.
  destruct (Z.eq_dec (Z.land (UChar_val (p 0)) 3) 3) as [Hc | Hc].
  - rewrite (getInsn_full p Hc). rewrite (H 0) in Hc by lia.
    rewrite (getInsn_full q Hc).
    rewrite (H 0), (H 1), (H 2), (H 3) by lia. reflexivity.
  - rewrite (getInsn_compressed p Hc). rewrite (H 0) in Hc by lia.
    rewrite (getInsn_compressed q Hc).
    rewrite (H 0), (H 1) by lia. reflexivity.
Qed.

(** Claim C8.  For every byte window, [getInsn] decides the length from the
    low two bits of byte 0.  When they are not 11 it dereferences offsets
    0, 1, 0 and returns byte 0 plus 256 times byte 1, a word whose upper 16
    bits are zero; otherwise it dereferences offsets 0, 3, 2, 1, 0 and
    returns the four bytes assembled little-endian, byte 0 least
    significant.  In both cases every offset it dereferences lies in 0..3
    and the word fits 32 bits. *)
Theorem getInsn_reads_window (p : Z -> byte) :
  let b := fun i : Z => UChar_val (p i) in
  Forall (fun i : Z => 0 <= i <= 3) (snd (getInsn p))
  /\ 0 <= fst (getInsn p) < 2 ^ 32
  /\ if Z.land (b 0) 3 =? 3
     then getInsn p
          = (b 0 + 2 ^ 8 * b 1 + 2 ^ 16 * b 2 + 2 ^ 24 * b 3, [0; 3; 2; 1; 0])
     else getInsn p = (b 0 + 2 ^ 8 * b 1, [0; 1; 0])
          /\ Z.shiftr (fst (getInsn p)) 16 = 0.
Proof.
  intros b. subst b. cbv beta.
  pose proof (UChar_val_range (p 0)). pose proof (UChar_val_range (p 1)).
  pose proof (UChar_val_range (p 2)). pose proof (UChar_val_range (p 3)).
  change (2 ^ 8) with 256 in *.
  destruct (Z.eqb_spec (Z.land (UChar_val (p 0)) 3) 3) as [Hc | Hc].
  - rewrite (getInsn_full p Hc). cbn [fst snd]. repeat split.
    + repeat constructor; lia.
    + lia.
    + change (2 ^ 8) with 256. lia.
  - rewrite (getInsn_compressed p Hc). cbn [fst snd]. repeat split.
    + repeat constructor; lia.
    + lia.
    + change (2 ^ 8) with 256. lia.
    + rewrite Z.shiftr_div_pow2 by lia. apply Z.div_small.
      change (2 ^ 8) with 256. lia.
Qed.

(** ** Registers *)

Lemma offsetIReg64_nat (n : nat) :
  (n < 32)%nat -> offsetIReg64 (Z.of_nat n) = Ok (guest_x (Z.of_nat n)).
Proof.
  intros Hn. do 32 (destruct n as [|n]; [reflexivity|]). lia.
Qed.

Lemma offsetIReg64_Ok (r : Z) :
  0 <= r < 32 -> offsetIReg64 r = Ok (guest_x r).
Proof.
  intros Hr. rewrite <- (Z2Nat.id r) by lia. apply offsetIReg64_nat. lia.
Qed.

Lemma nameIReg64_Ok (r : Z) :
  r < 32 -> exists name : string, nameIReg64 r = Ok name.
Proof.
  intros Hr. unfold nameIReg64, vassert_Res.
  destruct (Z.ltb_spec r 32); [|lia]. eexists. reflexivity.
Qed.

(** ** The fields of the compressed load-upper-immediate encoding *)

Lemma C_LUI_rd_range (insn : Z) : 0 <= C_LUI_rd insn < 32.
Proof. unfold C_LUI_rd. apply (SLICE_UInt_range insn 11 7); lia. Qed.

Lemma C_LUI_nzimm_value (insn : Z) :
  C_LUI_nzimm insn
  = 2 ^ 17 * SLICE_UInt insn 12 12 + 2 ^ 12 * SLICE_UInt insn 6 2.
Proof.
  unfold C_LUI_nzimm, shl_UInt.
  pose proof (SLICE_UInt_range insn 12 12) as H1.
  pose proof (SLICE_UInt_range insn 6 2) as H2.
  change (2 ^ (12 - 12 + 1)) with 2 in H1.
  change (2 ^ (6 - 2 + 1)) with 32 in H2.
  rewrite !Z.shiftl_mul_pow2 by lia.
  rewrite !to_UInt_small by lia.
  rewrite <- (Z.shiftl_mul_pow2 _ 17) by lia.
  rewrite lor_shl by lia. lia.
Qed.

Lemma C_LUI_nzimm_range (insn : Z) : 0 <= C_LUI_nzimm insn < 2 ^ 18.
Proof.
  rewrite C_LUI_nzimm_value.
  pose proof (SLICE_UInt_range insn 12 12) as H1.
  pose proof (SLICE_UInt_range insn 6 2) as H2.
  change (2 ^ (12 - 12 + 1)) with 2 in H1.
  change (2 ^ (6 - 2 + 1)) with 32 in H2. lia.
Qed.

(** The binary dump of an undecoded word: 32 digits, an apostrophe between
    the nibbles of a byte and a space between bytes. *)
Example dump_insn_c_lui_zero :
  c_string (dump_insn 0x6005) = "0000'0000 0000'0000 0110'0000 0000'0101"%string
  /\ String.length (c_string (dump_insn 0x6005)) = 39%nat.
Proof. split; vm_compute; reflexivity. Qed.

(** ** The quadrant decoders *)

Lemma dis_RISCV64_compressed_00_run (insn : Z) (sigill_diag : bool)
    (s : VexState) :
  exists out : list Printed,
    dis_RISCV64_compressed_00 insn sigill_diag s
    = Ok (false, mkVexState (dres s) (irsb s) (vex_traceflags s) out).
Proof.
  destruct s as [d bb tf out]. destruct sigill_diag; eexists; reflexivity.
Qed.

Lemma dis_RISCV64_compressed_10_run (insn : Z) (sigill_diag : bool)
    (s : VexState) :
  exists out : list Printed,
    dis_RISCV64_compressed_10 insn sigill_diag s
    = Ok (false, mkVexState (dres s) (irsb s) (vex_traceflags s) out).
Proof.
  destruct s as [d bb tf out]. destruct sigill_diag; eexists; reflexivity.
Qed.

Lemma dis_RISCV64_compressed_01_run (insn : Z) (sigill_diag : bool)
    (s : VexState) :
  exists out : list Printed,
    dis_RISCV64_compressed_01 insn sigill_diag s
    = Ok (C_LUI_valid insn,
          mkVexState (dres s)
                     (if C_LUI_valid insn
                      then addStmtToIRSB (irsb s) (C_LUI_stmt insn)
                      else irsb s)
                     (vex_traceflags s) out).
Proof.
  destruct s as [d bb tf out].
  unfold dis_RISCV64_compressed_01. cbv zeta beta.
  fold (C_LUI_rd insn) (C_LUI_nzimm insn). unfold C_LUI_valid.
  destruct (SLICE_UInt insn 15 13 =? BITS3 0 1 1); cbn [andb].
  2:{ destruct sigill_diag; eexists; reflexivity. }
  destruct ((C_LUI_rd insn =? 0) || (C_LUI_rd insn =? 2)
            || (C_LUI_nzimm insn =? 0)); cbn [negb].
  { destruct sigill_diag; eexists; reflexivity. }
  rewrite sx_to_64_value by (try apply C_LUI_nzimm_range; lia).
  unfold putIReg64.
  rewrite offsetIReg64_Ok by apply C_LUI_rd_range.
  destruct (nameIReg64_Ok (C_LUI_rd insn)) as [name Hname];
    [apply C_LUI_rd_range|].
  unfold DIP. rewrite Hname. unfold C_LUI_stmt.
  cbn [bind ret M_Monad get_state lift vassert stmt set_irsb vex_printf
       typeOfIRExpr typeOfIRConst mkU64 dres irsb vex_traceflags vex_out
       tyenv].
  change (bool_decide (Ity_I64 = Ity_I64)) with true.
  cbn [bind ret M_Monad get_state lift vassert stmt set_irsb vex_printf
       dres irsb vex_traceflags vex_out tyenv].
  destruct (negb (Z.land tf VEX_TRACE_FE =? 0)); eexists; reflexivity.
Qed.

Lemma dispatch_quadrant_run (insn : Z) (sigill_diag : bool) (s : VexState) :
  exists out : list Printed,
    dispatch_quadrant insn sigill_diag s
    = Ok (decodable insn,
          mkVexState (dres s)
                     (if decodable insn
                      then addStmtToIRSB (irsb s) (C_LUI_stmt insn)
                      else irsb s)
                     (vex_traceflags s) out).
Proof.
  unfold dispatch_quadrant, decodable. cbv zeta beta.
  pose proof (SLICE_UInt_range insn 1 0) as Hq.
  change (2 ^ (1 - 0 + 1)) with 4 in Hq.
  change X00 with 0. change X01 with 1. change X10 with 2.
  change X11 with 3.
  destruct (Z.eqb_spec (SLICE_UInt insn 1 0) 0) as [E0 | N0].
  { rewrite E0. cbn [Z.eqb andb]. apply dis_RISCV64_compressed_00_run. }
  destruct (Z.eqb_spec (SLICE_UInt insn 1 0) 1) as [E1 | N1].
  { cbn [andb]. apply dis_RISCV64_compressed_01_run. }
  cbn [andb].
  destruct (Z.eqb_spec (SLICE_UInt insn 1 0) 2) as [E2 | N2].
  { apply dis_RISCV64_compressed_10_run. }
  destruct (Z.eqb_spec (SLICE_UInt insn 1 0) 3) as [E3 | N3].
  { destruct s as [d bb tf out]. eexists. reflexivity. }
  lia.
Qed.

Lemma check_dres_unchanged_default (ok : bool) (bb : IRSB) (tf : Z)
    (out : list Printed) :
  check_dres_unchanged ok (mkVexState DisResult_default bb tf out)
  = Ok (tt, mkVexState DisResult_default bb tf out).
Proof. destruct ok; reflexivity. Qed.

Lemma disInstr_RISCV64_WRK_run (guest_instr : Z -> byte)
    (guest_pc_curr_instr : Z) (sigill_diag : bool) (s : VexState) :
  let insn := fst (getInsn guest_instr) in
  if 0 =? Z.land guest_pc_curr_instr 3 then
    exists out : list Printed,
      disInstr_RISCV64_WRK guest_instr guest_pc_curr_instr sigill_diag s
      = Ok (decodable insn,
            mkVexState DisResult_default
                       (if decodable insn
                        then addStmtToIRSB (irsb s) (C_LUI_stmt insn)
                        else irsb s)
                       (vex_traceflags s) out)
  else
    disInstr_RISCV64_WRK guest_instr guest_pc_curr_instr sigill_diag s
    = Abort "0 == (guest_pc_curr_instr & 3ULL)".
Proof.
  intros insn. destruct s as [d bb tf out].
  unfold disInstr_RISCV64_WRK, disInstr_RISCV64_WRK_with. fold insn.
  unfold set_whatNext, set_len, set_jk_StopHere, set_hint, DIP.
  cbn [bind ret M_Monad get_state set_dres dres irsb vex_traceflags vex_out
       len whatNext hint jk_StopHere].
  fold DisResult_default.
  destruct (0 =? Z.land guest_pc_curr_instr 3).
  - destruct (negb (Z.land tf VEX_TRACE_FE =? 0));
      cbn [bind ret M_Monad vex_printf vassert dres irsb vex_traceflags
           vex_out];
      match goal with
      | |- context [dispatch_quadrant insn sigill_diag ?s0] =>
          destruct (dispatch_quadrant_run insn sigill_diag s0) as [o Ho];
          rewrite Ho
      end;
      cbn [dres irsb vex_traceflags vex_out];
      rewrite check_dres_unchanged_default; eexists; reflexivity.
  - destruct (negb (Z.land tf VEX_TRACE_FE =? 0)); reflexivity.
Qed.

(** ** The top-level function *)

Lemma visible_decode_success (guest_IP : Z) (s : VexState) :
  visible (decode_success guest_IP s)
  = if (len (dres s) =? 4) || (len (dres s) =? 20) then
      match whatNext (dres s) with
      | Dis_Continue =>
          Ok (tt, dres s,
              addStmtToIRSB (irsb s)
                (IRStmt_Put OFFB_PC
                   (mkU64 (add_Addr guest_IP (len (dres s))))))
      | Dis_StopHere => Ok (tt, dres s, irsb s)
      | Dis_whatNext_0 => Abort "0"
      end
    else Abort "dres.len == 4 || dres.len == 20".
Proof.
  destruct s as [d bb tf out]. unfold decode_success, DIP, stmt.
  cbn [bind ret M_Monad get_state dres irsb vex_traceflags vex_out vassert].
  destruct ((len d =? 4) || (len d =? 20)); [|reflexivity].
  destruct (whatNext d);
    cbn [bind ret M_Monad get_state set_irsb vassert dres irsb vex_traceflags
         vex_out];
    try reflexivity;
    destruct (negb (Z.land tf VEX_TRACE_FE =? 0)); reflexivity.
Qed.

Lemma decode_failure_run (guest_code : Z -> byte) (delta guest_IP : Z)
    (sigill_diag : bool) (s : VexState) :
  exists out : list Printed,
    decode_failure guest_code delta guest_IP sigill_diag s
    = Ok (tt,
          mkVexState
            (mkDisResult 0 Dis_StopHere (hint (dres s)) Ijk_NoDecode)
            (addStmtToIRSB (irsb s)
               (IRStmt_Put OFFB_PC (mkU64 (to_ULong guest_IP))))
            (vex_traceflags s) out).
Proof.
  destruct s as [d bb tf out].
  unfold decode_failure, stmt, set_len, set_whatNext, set_jk_StopHere.
  destruct sigill_diag;
    cbn [bind ret M_Monad get_state set_irsb set_dres vex_printf dres irsb
         vex_traceflags vex_out len whatNext hint jk_StopHere];
    eexists; reflexivity.
Qed.

(** The state [disInstr_RISCV64] hands to the worker: [dres] zeroed. *)
Lemma disInstr_RISCV64_unfold (guest_code : Z -> byte) (delta guest_IP : Z)
    (sigill_diag : bool) (s : VexState) :
  disInstr_RISCV64 guest_code delta guest_IP VexArchRISCV64 sigill_diag s
  = match disInstr_RISCV64_WRK (offset_ptr guest_code delta) guest_IP
            sigill_diag
            (mkVexState DisResult_zero (irsb s) (vex_traceflags s) (vex_out s))
    with
    | Ok (ok, s1) =>
        match (if ok then decode_success guest_IP
               else decode_failure guest_code delta guest_IP sigill_diag) s1
        with
        | Ok (_, s2) => Ok (dres s2, s2)
        | Abort what => Abort what
        end
    | Abort what => Abort what
    end.
Proof.
  unfold disInstr_RISCV64.
  cbn [bind ret M_Monad set_dres get_state].
  change (bool_decide (VexArchRISCV64 = VexArchRISCV64)) with true.
  unfold vassert. cbv iota beta.
  destruct (disInstr_RISCV64_WRK _ _ _ _) as [[ok s1] | what];
    [|reflexivity].
  destruct ok;
    match goal with
    | |- context [match ?r with Ok _ => _ | Abort _ => _ end] =>
        destruct r as [[u s2] | what]; reflexivity
    end.
Qed.

Lemma disInstr_RISCV64_wrong_arch (guest_code : Z -> byte)
    (delta guest_IP : Z) (guest_arch : VexArch) (sigill_diag : bool)
    (s : VexState) :
  guest_arch <> VexArchRISCV64 ->
  disInstr_RISCV64 guest_code delta guest_IP guest_arch sigill_diag s
  = Abort "guest_arch == VexArchRISCV64".
Proof.
  intros Ha. unfold disInstr_RISCV64.
  cbn [bind ret M_Monad set_dres]. unfold vassert.
  rewrite bool_decide_eq_false_2 by exact Ha. reflexivity.
Qed.

Lemma disInstr_RISCV64_run (guest_code : Z -> byte) (delta guest_IP : Z)
    (guest_arch : VexArch) (sigill_diag : bool) (s : VexState) :
  visible (disInstr_RISCV64 guest_code delta guest_IP guest_arch
                            sigill_diag s)
  = disInstr_RISCV64_visible guest_code delta guest_IP guest_arch (irsb s).
Proof.
  unfold disInstr_RISCV64_visible. cbv zeta.
  destruct (decide (guest_arch = VexArchRISCV64)) as [-> | Ha].
  2:{ rewrite disInstr_RISCV64_wrong_arch by exact Ha.
      rewrite bool_decide_eq_false_2 by exact Ha. reflexivity. }
  change (bool_decide (VexArchRISCV64 = VexArchRISCV64)) with true.
  cbv iota. rewrite disInstr_RISCV64_unfold.
  pose proof (disInstr_RISCV64_WRK_run (offset_ptr guest_code delta)
                guest_IP sigill_diag
                (mkVexState DisResult_zero (irsb s) (vex_traceflags s)
                            (vex_out s))) as Hw.
  cbv zeta in Hw.
  destruct (0 =? Z.land guest_IP 3).
  2:{ rewrite Hw. reflexivity. }
  destruct Hw as [out Hw]. rewrite Hw. cbn [irsb vex_traceflags] in *.
  destruct (decodable (fst (getInsn (offset_ptr guest_code delta)))).
  - pose proof (visible_decode_success guest_IP
        (mkVexState DisResult_default
                    (addStmtToIRSB (irsb s)
                       (C_LUI_stmt (fst (getInsn (offset_ptr guest_code delta)))))
                    (vex_traceflags s) out)) as Hs.
    destruct (decode_success _ _) as [[u s2] | what];
      cbn in Hs; [|discriminate].
    injection Hs as _ Hd Hb. cbn [visible]. rewrite Hd, Hb. reflexivity.
  - match goal with
    | |- context [decode_failure ?c ?d ?i ?sd ?s0] =>
        destruct (decode_failure_run c d i sd s0) as [o Ho]; rewrite Ho
    end.
    reflexivity.
Qed.

Lemma disInstr_RISCV64_WRK_visible_run (guest_instr : Z -> byte)
    (guest_pc_curr_instr : Z) (sigill_diag : bool) (s : VexState) :
  visible (disInstr_RISCV64_WRK guest_instr guest_pc_curr_instr
                                sigill_diag s)
  = disInstr_RISCV64_WRK_visible guest_instr guest_pc_curr_instr (irsb s).
Proof.
  pose proof (disInstr_RISCV64_WRK_run guest_instr guest_pc_curr_instr
                sigill_diag s) as Hw.
  unfold disInstr_RISCV64_WRK_visible. cbv zeta in *.
  destruct (0 =? Z.land guest_pc_curr_instr 3).
  - destruct Hw as [out ->]. reflexivity.
  - rewrite Hw. reflexivity.
Qed.

Lemma land_3_mod_4 (a : Z) : Z.land a 3 = a mod 4.
Proof. exact (Z.land_ones a 2 ltac:(lia)). Qed.

(** Every valid compressed load-upper-immediate is decoded: one write of the
    sign-extended immediate to the destination register, and a [DisResult]
    still at its defaults. *)
Lemma disInstr_RISCV64_WRK_C_LUI (guest_instr : Z -> byte)
    (guest_pc_curr_instr : Z) (sigill_diag : bool) (s : VexState) :
  let insn := fst (getInsn guest_instr) in
  SLICE_UInt insn 1 0 = X01 ->
  SLICE_UInt insn 15 13 = BITS3 0 1 1 ->
  C_LUI_rd insn <> 0 -> C_LUI_rd insn <> 2 -> C_LUI_nzimm insn <> 0 ->
  guest_pc_curr_instr mod 4 = 0 ->
  sx_to_64 (C_LUI_nzimm insn) 18 = Ok (sx_value (C_LUI_nzimm insn) 18)
  /\ exists out : list Printed,
       disInstr_RISCV64_WRK guest_instr guest_pc_curr_instr sigill_diag s
       = Ok (true,
             mkVexState DisResult_default
               (addStmtToIRSB (irsb s)
                  (IRStmt_Put (guest_x (C_LUI_rd insn))
                     (mkU64 (sx_value (C_LUI_nzimm insn) 18))))
               (vex_traceflags s) out).
Proof.
  intros insn Hq Hf Hr0 Hr2 Hz Hpc. split.
  { apply sx_to_64_value; [lia | apply C_LUI_nzimm_range]. }
  pose proof (disInstr_RISCV64_WRK_run guest_instr guest_pc_curr_instr
                sigill_diag s) as Hw.
  cbv zeta in Hw. fold insn in Hw.
  rewrite land_3_mod_4, Hpc in Hw. cbn [Z.eqb] in Hw.
  assert (Hd : decodable insn = true).
  { unfold decodable, C_LUI_valid. rewrite Hq, Hf, !Z.eqb_refl.
    destruct (Z.eqb_spec (C_LUI_rd insn) 0); [contradiction|].
    destruct (Z.eqb_spec (C_LUI_rd insn) 2); [contradiction|].
    destruct (Z.eqb_spec (C_LUI_nzimm insn) 0); [contradiction|].
    reflexivity. }
  rewrite Hd in Hw. exact Hw.
Qed.

(** Claim C1, evaluated at [c.lui a0, 0x1] (bytes 05 65) placed at address
    [0x1000].  The word read is [0x6505], its register field is 10 and its
    immediate [0x1000], which [sx_to_64] leaves as it is.  The decode
    succeeds, the block receives the write of [0x1000] to register 10 and
    then a program-counter write of [0x1004], and the [DisResult] returned
    has continuation continue-sequentially and length 4: the two-byte
    instruction is reported four bytes long. *)
Theorem C_LUI_a0_reported_4_bytes_long (sigill_diag : bool) (s : VexState) :
  let guest_code := window [x05; x65]%byte in
  fst (getInsn guest_code) = 0x6505
  /\ SLICE_UInt 0x6505 1 0 = X01 /\ SLICE_UInt 0x6505 15 13 = BITS3 0 1 1
  /\ C_LUI_rd 0x6505 = 10 /\ C_LUI_nzimm 0x6505 = 0x1000
  /\ sx_to_64 0x1000 18 = Ok 0x1000
  /\ exists (d : DisResult) (bb : IRSB),
       visible (disInstr_RISCV64 guest_code 0 0x1000 VexArchRISCV64
                                 sigill_diag s)
       = Ok (d, d, bb)
       /\ len d = 4 /\ whatNext d = Dis_Continue
       /\ tyenv bb = tyenv (irsb s)
       /\ stmts bb
          = stmts (irsb s)
            ++ [IRStmt_Put OFFB_X10 (mkU64 0x1000);
                IRStmt_Put OFFB_PC (mkU64 0x1004)].
Proof.
  intros guest_code. do 6 (split; [reflexivity|]).
  rewrite disInstr_RISCV64_run. unfold disInstr_RISCV64_visible.
  change (bool_decide (VexArchRISCV64 = VexArchRISCV64)) with true.
  change (fst (getInsn (offset_ptr guest_code 0))) with 0x6505.
  change (decodable 0x6505) with true.
  change (0 =? Z.land 0x1000 3) with true. cbv iota.
  eexists. eexists. split; [reflexivity|].
  unfold addStmtToIRSB. cbn [tyenv stmts len whatNext DisResult_default].
  rewrite <- app_assoc. repeat split; reflexivity.
Qed.

Lemma decode_success_continue (guest_IP : Z) (s : VexState) :
  len (dres s) = 4 \/ len (dres s) = 20 ->
  whatNext (dres s) = Dis_Continue ->
  exists out : list Printed,
    decode_success guest_IP s
    = Ok (tt,
          mkVexState (dres s)
            (mkIRSB (tyenv (irsb s))
                    (stmts (irsb s)
                     ++ [IRStmt_Put guest_pc
                           (IRExpr_Const
                              (IRConst_U64
                                 ((guest_IP + len (dres s)) mod 2 ^ 64)))]))
            (vex_traceflags s) out).
Proof.
  intros Hlen Hnext. destruct s as [d bb tf out].
  unfold decode_success, DIP, stmt, vassert.
  cbn [bind ret M_Monad get_state dres irsb vex_traceflags vex_out] in *.
  assert (Hok : (len d =? 4) || (len d =? 20) = true)
    by (destruct Hlen as [-> | ->]; reflexivity).
  rewrite Hok, Hnext.
  cbn [bind ret M_Monad get_state set_irsb dres irsb vex_traceflags vex_out].
  destruct (negb (Z.land tf VEX_TRACE_FE =? 0)); eexists; reflexivity.
Qed.

(** Claim C2.  Whenever the worker reports success, leaving the state
    [s1], [disInstr_RISCV64] continues with [decode_success] from [s1] and
    returns the [DisResult] that leaves: it asserts that the length is 4 or
    20 and aborts otherwise; then with continuation [Dis_Continue] it
    appends to the block of [s1] exactly one statement, the write of the
    constant [(guest_IP + len) mod 2^64] to the guest state at the offset
    of the program counter, with [Dis_StopHere] it appends nothing, and in
    both cases it returns the [DisResult] of [s1] unchanged.  With the
    rules there are, [s1] holds length 4 and [Dis_Continue], so the one
    statement is the write of [(guest_IP + 4) mod 2^64].  On every state
    [s], [decode_success] by itself behaves in the same way. *)
Theorem disInstr_RISCV64_on_success (guest_code : Z -> byte)
    (delta guest_IP : Z) (guest_arch : VexArch) (sigill_diag : bool)
    (s0 s1 s : VexState) :
  guest_arch = VexArchRISCV64 ->
  disInstr_RISCV64_WRK (offset_ptr guest_code delta) guest_IP sigill_diag
                       (zeroed s0) = Ok (true, s1) ->
  disInstr_RISCV64 guest_code delta guest_IP guest_arch sigill_diag s0
  = match decode_success guest_IP s1 with
    | Ok (_, s2) => Ok (dres s2, s2)
    | Abort what => Abort what
    end
  /\ visible (decode_success guest_IP s)
     = (if (len (dres s) =? 4) || (len (dres s) =? 20) then
          match whatNext (dres s) with
          | Dis_Continue =>
              Ok (tt, dres s,
                  mkIRSB (tyenv (irsb s))
                         (stmts (irsb s)
                          ++ [IRStmt_Put guest_pc
                                (IRExpr_Const
                                   (IRConst_U64
                                      ((guest_IP + len (dres s))
                                       mod 2 ^ 64)))]))
          | Dis_StopHere => Ok (tt, dres s, irsb s)
          | Dis_whatNext_0 => Abort "0"
          end
        else Abort "dres.len == 4 || dres.len == 20")
  /\ visible (disInstr_RISCV64 guest_code delta guest_IP guest_arch
                               sigill_diag s0)
     = (if (len (dres s1) =? 4) || (len (dres s1) =? 20) then
          match whatNext (dres s1) with
          | Dis_Continue =>
              Ok (dres s1, dres s1,
                  mkIRSB (tyenv (irsb s1))
                         (stmts (irsb s1)
                          ++ [IRStmt_Put guest_pc
                                (IRExpr_Const
                                   (IRConst_U64
                                      ((guest_IP + len (dres s1))
                                       mod 2 ^ 64)))]))
          | Dis_StopHere => Ok (dres s1, dres s1, irsb s1)
          | Dis_whatNext_0 => Abort "0"
          end
        else Abort "dres.len == 4 || dres.len == 20")
  /\ len (dres s1) = 4 /\ whatNext (dres s1) = Dis_Continue
  /\ exists out : list Printed,
       disInstr_RISCV64 guest_code delta guest_IP guest_arch sigill_diag s0
       = Ok (dres s1,
             mkVexState (dres s1)
               (mkIRSB (tyenv (irsb s1))
                       (stmts (irsb s1)
                        ++ [IRStmt_Put guest_pc
                              (IRExpr_Const
                                 (IRConst_U64 ((guest_IP + 4) mod 2 ^ 64)))]))
               (vex_traceflags s1) out).
Proof.
  intros -> Hw.
  assert (Hdrv : disInstr_RISCV64 guest_code delta guest_IP VexArchRISCV64
                   sigill_diag s0
                 = match decode_success guest_IP s1 with
                   | Ok (_, s2) => Ok (dres s2, s2)
                   | Abort what => Abort what
                   end).
  { rewrite disInstr_RISCV64_unfold. fold (zeroed s0). rewrite Hw.
    reflexivity. }
  assert (Hgen : forall t : VexState,
            visible (decode_success guest_IP t)
            = (if (len (dres t) =? 4) || (len (dres t) =? 20) then
                 match whatNext (dres t) with
                 | Dis_Continue =>
                     Ok (tt, dres t,
                         mkIRSB (tyenv (irsb t))
                           (stmts (irsb t)
                            ++ [IRStmt_Put guest_pc
                                  (IRExpr_Const
                                     (IRConst_U64
                                        ((guest_IP + len (dres t))
                                         mod 2 ^ 64)))]))
                 | Dis_StopHere => Ok (tt, dres t, irsb t)
                 | Dis_whatNext_0 => Abort "0"
                 end
               else Abort "dres.len == 4 || dres.len == 20")).
  { intros t. apply visible_decode_success. }
  split; [exact Hdrv|]. split; [apply Hgen|].
  pose proof (disInstr_RISCV64_WRK_run (offset_ptr guest_code delta)
                guest_IP sigill_diag (zeroed s0)) as Hr.
  cbv zeta in Hr. rewrite Hw in Hr.
  destruct (0 =? Z.land guest_IP 3); [|discriminate].
  destruct Hr as [out1 Hr]. injection Hr as Hd Hs1.
  assert (Hlen : len (dres s1) = 4) by (rewrite Hs1; reflexivity).
  assert (Hnext : whatNext (dres s1) = Dis_Continue)
    by (rewrite Hs1; reflexivity).
  destruct (decode_success_continue guest_IP s1 (or_introl Hlen) Hnext)
    as [out Hrun].
  split.
  { rewrite Hdrv, Hrun. cbn [visible dres irsb]. rewrite Hlen, Hnext.
    reflexivity. }
  split; [exact Hlen|]. split; [exact Hnext|].
  rewrite Hdrv, Hrun, Hlen. exists out. reflexivity.
Qed.

(** Claim C3.  Whenever the worker reports failure, leaving the state
    [s1], [disInstr_RISCV64] appends to the block of [s1] one statement,
    the write of the constant [guest_IP], the address of the instruction
    that was not decoded, to the guest state at the offset of the program
    counter, and returns a [DisResult] with length 0, continuation
    [Dis_StopHere] and jump kind [Ijk_NoDecode]; the worker itself had
    appended nothing. *)
Theorem disInstr_RISCV64_on_failure (guest_code : Z -> byte)
    (delta guest_IP : Z) (guest_arch : VexArch) (sigill_diag : bool)
    (s0 s1 : VexState) :
  guest_arch = VexArchRISCV64 ->
  0 <= guest_IP < 2 ^ 64 ->
  disInstr_RISCV64_WRK (offset_ptr guest_code delta) guest_IP sigill_diag
                       (zeroed s0) = Ok (false, s1) ->
  exists (d : DisResult) (s2 : VexState),
    disInstr_RISCV64 guest_code delta guest_IP guest_arch sigill_diag s0
    = Ok (d, s2)
    /\ dres s2 = d
    /\ len d = 0 /\ whatNext d = Dis_StopHere /\ jk_StopHere d = Ijk_NoDecode
    /\ hint d = Dis_HintNone
    /\ tyenv (irsb s2) = tyenv (irsb s1)
    /\ stmts (irsb s2)
       = stmts (irsb s1)
         ++ [IRStmt_Put guest_pc (IRExpr_Const (IRConst_U64 guest_IP))]
    /\ irsb s1 = irsb s0.
Proof.
  intros -> Hip Hw.
  rewrite disInstr_RISCV64_unfold. fold (zeroed s0). rewrite Hw.
  destruct (decode_failure_run guest_code delta guest_IP sigill_diag s1)
    as [out Hf].
  rewrite Hf. rewrite to_ULong_small by exact Hip.
  pose proof (disInstr_RISCV64_WRK_run (offset_ptr guest_code delta)
                guest_IP sigill_diag (zeroed s0)) as Hr.
  cbv zeta in Hr. rewrite Hw in Hr.
  destruct (0 =? Z.land guest_IP 3); [|discriminate].
  destruct Hr as [out' Hr]. injection Hr as Hd Hs1.
  rewrite <- Hd in Hs1. subst s1.
  eexists. eexists. split; [reflexivity|].
  cbn [dres irsb len whatNext hint jk_StopHere tyenv stmts addStmtToIRSB
       zeroed DisResult_default].
  repeat split; reflexivity.
Qed.

Lemma check_dres_unchanged_cases (t : VexState) :
  check_dres_unchanged false t
  = if bool_decide (whatNext (dres t) = Dis_Continue) then
      if len (dres t) =? 4 then
        if bool_decide (jk_StopHere (dres t) = Ijk_INVALID) then Ok (tt, t)
        else Abort "dres->jk_StopHere == Ijk_INVALID"
      else Abort "dres->len == 4"
    else Abort "dres->whatNext == Dis_Continue".
Proof.
  destruct t as [d bb tf out]. unfold check_dres_unchanged, vassert.
  cbn [negb bind ret M_Monad get_state dres].
  destruct (bool_decide (whatNext d = Dis_Continue)); [|reflexivity].
  destruct (len d =? 4); [|reflexivity].
  destruct (bool_decide (jk_StopHere d = Ijk_INVALID)); reflexivity.
Qed.

(** The worker around any decoder: it sets the defaults, prints the trace
    line if tracing is on, asserts the alignment, calls the decoder on the
    state it has built and runs the check on what the decoder leaves. *)
Lemma disInstr_RISCV64_WRK_with_run (guest_instr : Z -> byte)
    (guest_pc_curr_instr : Z) (sigill_diag : bool) (s : VexState) :
  exists out0 : list Printed,
    forall dispatch : Z -> bool -> M bool,
      disInstr_RISCV64_WRK_with dispatch guest_instr guest_pc_curr_instr
                                sigill_diag s
      = if 0 =? Z.land guest_pc_curr_instr 3 then
          match dispatch (fst (getInsn guest_instr)) sigill_diag
                  (mkVexState
                     (mkDisResult 4 Dis_Continue Dis_HintNone Ijk_INVALID)
                     (irsb s) (vex_traceflags s) out0)
          with
          | Ok (ok, t0) =>
              match check_dres_unchanged ok t0 with
              | Ok (_, t1) => Ok (ok, t1)
              | Abort what => Abort what
              end
          | Abort what => Abort what
          end
        else Abort "0 == (guest_pc_curr_instr & 3ULL)".
Proof.
  destruct s as [d bb tf out].
  unfold disInstr_RISCV64_WRK_with.
  unfold set_whatNext, set_len, set_jk_StopHere, set_hint, DIP.
  cbn [bind ret M_Monad get_state set_dres dres irsb vex_traceflags vex_out
       len whatNext hint jk_StopHere].
  unfold vassert.
  destruct (negb (Z.land tf VEX_TRACE_FE =? 0));
    cbn [bind ret M_Monad vex_printf dres irsb vex_traceflags vex_out];
    match goal with
    | |- context [mkVexState _ bb tf ?o] => exists o
    end;
    intros dispatch;
    (destruct (0 =? Z.land guest_pc_curr_instr 3); [|reflexivity]);
    cbv beta iota;
    match goal with
    | |- context [dispatch ?i ?sd ?s0] =>
        destruct (dispatch i sd s0) as [[ok t0] | what]; [|reflexivity]
    end;
    destruct (check_dres_unchanged ok t0) as [[u t1] | what]; reflexivity.
Qed.

(** Claim C4.  Whenever [disInstr_RISCV64_WRK] returns false, the
    [DisResult] it leaves has the defaults set at its start: continuation
    [Dis_Continue], length 4, jump kind [Ijk_INVALID] (and hint
    [Dis_HintNone]).  The quadrant dispatch leaves the [DisResult] as it
    found it whenever it returns false.  The worker verifies the defaults
    itself before it returns, whatever decoder it dispatches to: it is
    its body [disInstr_RISCV64_WRK_with] run with the quadrant dispatch;
    when the decoder it calls returns false, leaving the state [t0], the
    worker returns false with [t0] if continuation, length and jump kind of
    [t0] are the defaults, and otherwise aborts on the assertion of the
    first of the three fields that differs; so no decoder can make the
    worker return false with another continuation, length or jump kind.
    The check on its own passes, changing nothing, exactly when all three
    hold their defaults. *)
Theorem failure_leaves_defaults (guest_instr : Z -> byte)
    (guest_pc_curr_instr : Z) (sigill_diag : bool) (s s' t : VexState) :
  disInstr_RISCV64_WRK guest_instr guest_pc_curr_instr sigill_diag s
  = Ok (false, s') ->
  (whatNext (dres s') = Dis_Continue /\ len (dres s') = 4
   /\ jk_StopHere (dres s') = Ijk_INVALID /\ hint (dres s') = Dis_HintNone)
  /\ (forall (insn : Z) (t' : VexState),
        dispatch_quadrant insn sigill_diag t = Ok (false, t') ->
        dres t' = dres t)
  /\ check_dres_unchanged false t
     = (if bool_decide (whatNext (dres t) = Dis_Continue) then
          if len (dres t) =? 4 then
            if bool_decide (jk_StopHere (dres t) = Ijk_INVALID)
            then Ok (tt, t)
            else Abort "dres->jk_StopHere == Ijk_INVALID"
          else Abort "dres->len == 4"
        else Abort "dres->whatNext == Dis_Continue")
  /\ disInstr_RISCV64_WRK guest_instr guest_pc_curr_instr sigill_diag s
     = disInstr_RISCV64_WRK_with dispatch_quadrant guest_instr
         guest_pc_curr_instr sigill_diag s
  /\ (exists out0 : list Printed,
        forall (dispatch : Z -> bool -> M bool) (t0 : VexState),
          dispatch (fst (getInsn guest_instr)) sigill_diag
                   (mkVexState
                      (mkDisResult 4 Dis_Continue Dis_HintNone Ijk_INVALID)
                      (irsb s) (vex_traceflags s) out0)
          = Ok (false, t0) ->
          disInstr_RISCV64_WRK_with dispatch guest_instr guest_pc_curr_instr
                                    sigill_diag s
          = if bool_decide (whatNext (dres t0) = Dis_Continue) then
              if len (dres t0) =? 4 then
                if bool_decide (jk_StopHere (dres t0) = Ijk_INVALID)
                then Ok (false, t0)
                else Abort "dres->jk_StopHere == Ijk_INVALID"
              else Abort "dres->len == 4"
            else Abort "dres->whatNext == Dis_Continue")
  /\ (forall (dispatch : Z -> bool -> M bool) (s'' : VexState),
        disInstr_RISCV64_WRK_with dispatch guest_instr guest_pc_curr_instr
                                  sigill_diag s
        = Ok (false, s'') ->
        whatNext (dres s'') = Dis_Continue /\ len (dres s'') = 4
        /\ jk_StopHere (dres s'') = Ijk_INVALID).
Proof.
  intros Hw.
  pose proof (disInstr_RISCV64_WRK_run guest_instr guest_pc_curr_instr
                sigill_diag s) as Hr.
  cbv zeta in Hr. rewrite Hw in Hr.
  destruct (disInstr_RISCV64_WRK_with_run guest_instr guest_pc_curr_instr
              sigill_diag s) as [out0 Hwith].
  destruct (0 =? Z.land guest_pc_curr_instr 3); [|discriminate].
  destruct Hr as [out Hr]. injection Hr as _ Hs'.
  split; [subst s'; repeat split; reflexivity|].
  split.
  { intros insn t' Hq.
    destruct (dispatch_quadrant_run insn sigill_diag t) as [o Ho].
    rewrite Hq in Ho. injection Ho as _ ->. reflexivity. }
  split; [apply check_dres_unchanged_cases|].
  split; [reflexivity|].
  split.
  { exists out0. intros dispatch t0 Hd. rewrite Hwith, Hd.
    rewrite check_dres_unchanged_cases.
    destruct (bool_decide (whatNext (dres t0) = Dis_Continue));
      [|reflexivity].
    destruct (len (dres t0) =? 4); [|reflexivity].
    destruct (bool_decide (jk_StopHere (dres t0) = Ijk_INVALID));
      reflexivity. }
  intros dispatch s'' Hrun. rewrite Hwith in Hrun.
  destruct (dispatch _ _ _) as [[ok t0] | what]; [|discriminate].
  destruct ok.
  { destruct (check_dres_unchanged true t0) as [[u t1] | what];
      discriminate. }
  rewrite check_dres_unchanged_cases in Hrun.
  destruct (bool_decide_reflect (whatNext (dres t0) = Dis_Continue))
    as [Hn | _]; [|discriminate].
  destruct (Z.eqb_spec (len (dres t0)) 4) as [Hl | _]; [|discriminate].
  destruct (bool_decide_reflect (jk_StopHere (dres t0) = Ijk_INVALID))
    as [Hj | _]; [|discriminate].
  injection Hrun as <-. auto.
Qed.

(** Claim C5.  For every word of quadrant 01 whose bits [15:13] are 011 and
    whose side-constraints fail (register 0, register 2, or an all-zero
    immediate), [dis_RISCV64_compressed_01] returns false and leaves the
    [DisResult], the block and the trace flags exactly as they were; so
    does the quadrant dispatch.  Only the diagnostics may have grown. *)
Theorem rejected_C_LUI_changes_nothing (insn : Z) (sigill_diag : bool)
    (s : VexState) :
  SLICE_UInt insn 1 0 = X01 ->
  SLICE_UInt insn 15 13 = BITS3 0 1 1 ->
  C_LUI_rd insn = 0 \/ C_LUI_rd insn = 2 \/ C_LUI_nzimm insn = 0 ->
  (exists out : list Printed,
     dis_RISCV64_compressed_01 insn sigill_diag s
     = Ok (false, mkVexState (dres s) (irsb s) (vex_traceflags s) out))
  /\ (exists out : list Printed,
        dispatch_quadrant insn sigill_diag s
        = Ok (false, mkVexState (dres s) (irsb s) (vex_traceflags s) out)).
Proof.
  intros Hq Hf Hbad.
  assert (Hv : C_LUI_valid insn = false).
  { unfold C_LUI_valid. rewrite Hf, Z.eqb_refl. cbn [andb].
    destruct Hbad as [-> | [-> | ->]]; cbn [Z.eqb orb negb];
      rewrite ?orb_true_r; reflexivity. }
  split.
  - destruct (dis_RISCV64_compressed_01_run insn sigill_diag s) as [out Hr].
    rewrite Hv in Hr. exists out. exact Hr.
  - destruct (dispatch_quadrant_run insn sigill_diag s) as [out Hr].
    unfold decodable in Hr. rewrite Hv, andb_false_r in Hr.
    exists out. exact Hr.
Qed.

(** Claim C9.  For every byte window, program counter and block, the
    decode-success flag, the [DisResult] and the block that
    [disInstr_RISCV64_WRK] leaves, and the [DisResult] and the block that
    [disInstr_RISCV64] leaves, or the assertion either of them fails, are
    the same for any two settings of [vex_traceflags] and of [sigill_diag]
    and any two contents of the diagnostics channel. *)
Theorem diagnostics_do_not_affect_decoding (guest_code : Z -> byte)
    (delta guest_IP : Z) (guest_arch : VexArch) (d : DisResult) (bb : IRSB)
    (traceflags1 traceflags2 : Z) (out1 out2 : list Printed)
    (sigill_diag1 sigill_diag2 : bool) :
  visible (disInstr_RISCV64_WRK (offset_ptr guest_code delta) guest_IP
             sigill_diag1 (mkVexState d bb traceflags1 out1))
  = visible (disInstr_RISCV64_WRK (offset_ptr guest_code delta) guest_IP
               sigill_diag2 (mkVexState d bb traceflags2 out2))
  /\ visible (disInstr_RISCV64 guest_code delta guest_IP guest_arch
                sigill_diag1 (mkVexState d bb traceflags1 out1))
     = visible (disInstr_RISCV64 guest_code delta guest_IP guest_arch
                  sigill_diag2 (mkVexState d bb traceflags2 out2)).
Proof.
  split.
  - rewrite !disInstr_RISCV64_WRK_visible_run. reflexivity.
  - rewrite !disInstr_RISCV64_run. reflexivity.
Qed.

(** Claim C10.  The worker asserts that the program counter is a multiple
    of 4: with an aligned program counter it always returns, no assertion
    of the decode failing, and with any other program counter it aborts on
    that assertion.  In particular a call of [disInstr_RISCV64] with a
    program counter that is 2 modulo 4 aborts instead of decoding. *)
Theorem misaligned_pc_aborts (guest_code : Z -> byte)
    (delta guest_IP : Z) (sigill_diag : bool) (s : VexState) :
  (guest_IP mod 4 = 0 ->
   exists (ok : bool) (s' : VexState),
     disInstr_RISCV64_WRK (offset_ptr guest_code delta) guest_IP
                          sigill_diag s = Ok (ok, s'))
  /\ (guest_IP mod 4 <> 0 ->
      disInstr_RISCV64_WRK (offset_ptr guest_code delta) guest_IP
                           sigill_diag s
      = Abort "0 == (guest_pc_curr_instr & 3ULL)")
  /\ (guest_IP mod 4 = 2 ->
      disInstr_RISCV64 guest_code delta guest_IP VexArchRISCV64
                       sigill_diag s
      = Abort "0 == (guest_pc_curr_instr & 3ULL)").
Proof.
  pose proof (disInstr_RISCV64_WRK_run (offset_ptr guest_code delta)
                guest_IP sigill_diag) as Hw.
  cbv zeta in Hw. rewrite land_3_mod_4 in Hw.
  repeat split.
  - intros Ha. specialize (Hw s). rewrite Ha in Hw. cbn [Z.eqb] in Hw.
    destruct Hw as [out Hw]. eauto.
  - intros Ha. specialize (Hw s).
    destruct (Z.eqb_spec 0 (guest_IP mod 4)); [congruence | exact Hw].
  - intros Ha. rewrite disInstr_RISCV64_unfold.
    specialize (Hw (mkVexState DisResult_zero (irsb s) (vex_traceflags s)
                               (vex_out s))).
    rewrite Ha in Hw. cbn [Z.eqb] in Hw. rewrite Hw. reflexivity.
Qed.

(** * Further properties of the helpers *)

(** ** Bit-field extraction, bit by bit *)

Lemma SLICE_UInt_bit (word highBit lowBit i : Z) :
  0 <= lowBit <= highBit -> highBit < 32 -> 0 <= i ->
  Z.testbit (SLICE_UInt word highBit lowBit) i
  = (i <=? highBit - lowBit) && Z.testbit word (lowBit + i).
Proof.
  intros Hb Hh Hi. unfold SLICE_UInt.
  rewrite SLICE_UInt_mask by lia.
  rewrite Z.land_spec, Z.shiftr_spec by lia.
  rewrite Z.testbit_ones_nonneg by lia.
  destruct (Z.leb_spec i (highBit - lowBit)) as [Hin | Hout].
  - destruct (Z.ltb_spec i (highBit - lowBit + 1)); [|lia].
    unfold to_UInt. rewrite Z.mod_pow2_bits_low by lia.
    rewrite andb_true_r. cbn [andb]. f_equal. lia.
  - destruct (Z.ltb_spec i (highBit - lowBit + 1)); [lia|].
    rewrite andb_false_r. reflexivity.
Qed.

(** Property X1. Bit [i] of [_uint[_bMax:_bMin]] is bit [_bMin + i] of the word when
    [i] lies within the field and is clear above it, whatever lies in the
    word above bit 31. *)
Theorem SLICE_UInt_testbit (word highBit lowBit i : Z) :
  0 <= lowBit <= highBit -> highBit < 32 -> 0 <= i ->
  Z.testbit (SLICE_UInt word highBit lowBit) i
  = (i <=? highBit - lowBit) && Z.testbit word (lowBit + i).
Proof. exact (SLICE_UInt_bit word highBit lowBit i). Qed.

Lemma SLICE_UInt_div_mod (word highBit lowBit : Z) :
  0 <= lowBit <= highBit -> highBit < 32 ->
  SLICE_UInt word highBit lowBit
  = (to_UInt word / 2 ^ lowBit) mod 2 ^ (highBit - lowBit + 1).
Proof.
  intros Hb Hh. unfold SLICE_UInt.
  rewrite SLICE_UInt_mask by lia.
  rewrite Z.land_ones by lia. rewrite Z.shiftr_div_pow2 by lia.
  reflexivity.
Qed.

(** Property X2. Two adjacent fields make up the field that spans them. *)
Theorem SLICE_UInt_split (word highBit midBit lowBit : Z) :
  0 <= lowBit <= midBit -> midBit < highBit -> highBit < 32 ->
  SLICE_UInt word highBit lowBit
  = 2 ^ (midBit - lowBit + 1) * SLICE_UInt word highBit (midBit + 1)
    + SLICE_UInt word midBit lowBit.
Proof.
  intros Hl Hm Hh.
  rewrite !SLICE_UInt_div_mod by lia.
  replace (highBit - lowBit + 1)
    with ((midBit - lowBit + 1) + (highBit - (midBit + 1) + 1)) by lia.
  rewrite pow2_split by lia.
  assert (Hp1 : 0 < 2 ^ (midBit - lowBit + 1))
    by (apply Z.pow_pos_nonneg; lia).
  assert (Hp2 : 0 < 2 ^ (highBit - (midBit + 1) + 1))
    by (apply Z.pow_pos_nonneg; lia).
  assert (Hp3 : 0 < 2 ^ lowBit) by (apply Z.pow_pos_nonneg; lia).
  rewrite Z.rem_mul_r by lia.
  rewrite Z.div_div by lia.
  rewrite <- pow2_split by lia.
  replace (lowBit + (midBit - lowBit + 1)) with (midBit + 1) by lia.
  lia.
Qed.

(** ** The instruction reader, byte by byte *)

Lemma getInsn_range (p : Z -> byte) : 0 <= fst (getInsn p) < 2 ^ 32.
Proof.
  pose proof (UChar_val_range (p 0)). pose proof (UChar_val_range (p 1)).
  pose proof (UChar_val_range (p 2)). pose proof (UChar_val_range (p 3)).
  change (2 ^ 8) with 256 in *.
  destruct (Z.eq_dec (Z.land (UChar_val (p 0)) 3) 3) as [Hc | Hc].
  - rewrite (getInsn_full p Hc). cbn [fst]. change (2 ^ 8) with 256. lia.
  - rewrite (getInsn_compressed p Hc). cbn [fst]. change (2 ^ 8) with 256.
    lia.
Qed.

Lemma getInsn_fields (p : Z -> byte) :
  let insn := fst (getInsn p) in
  SLICE_UInt insn 7 0 = UChar_val (p 0)
  /\ SLICE_UInt insn 15 8 = UChar_val (p 1)
  /\ SLICE_UInt insn 1 0 = Z.land (UChar_val (p 0)) 3
  /\ if Z.land (UChar_val (p 0)) 3 =? 3
     then SLICE_UInt insn 23 16 = UChar_val (p 2)
          /\ SLICE_UInt insn 31 24 = UChar_val (p 3)
     else SLICE_UInt insn 31 16 = 0.
Proof.
  intros insn. subst insn.
  pose proof (UChar_val_range (p 0)) as H0.
  pose proof (UChar_val_range (p 1)) as H1.
  pose proof (UChar_val_range (p 2)) as H2.
  pose proof (UChar_val_range (p 3)) as H3.
  pose proof (getInsn_range p) as Hr.
  rewrite !SLICE_UInt_div_mod by lia.
  rewrite (to_UInt_small _ Hr).
  change (Z.land (UChar_val (p 0)) 3)
    with (Z.land (UChar_val (p 0)) (Z.ones 2)).
  rewrite Z.land_ones by lia.
  change (2 ^ 8) with 256 in *.
  destruct (Z.eqb_spec (UChar_val (p 0) mod 2 ^ 2) 3) as [Hc | Hc].
  - rewrite getInsn_full
      by (change 3 with (Z.ones 2); rewrite Z.land_ones by lia; exact Hc).
    cbn [fst]. clear Hr Hc.
    change (2 ^ 8) with 256. change (2 ^ 16) with 65536.
    change (2 ^ 24) with 16777216. change (2 ^ 0) with 1.
    change (2 ^ (7 - 0 + 1)) with 256. change (2 ^ (15 - 8 + 1)) with 256.
    change (2 ^ (1 - 0 + 1)) with 4. change (2 ^ 2) with 4.
    change (2 ^ (23 - 16 + 1)) with 256.
    change (2 ^ (31 - 24 + 1)) with 256.
    repeat split; Z.div_mod_to_equations; lia.
  - rewrite getInsn_compressed
      by (change 3 with (Z.ones 2); rewrite Z.land_ones by lia; exact Hc).
    cbn [fst]. clear Hr Hc.
    change (2 ^ 8) with 256. change (2 ^ 16) with 65536.
    change (2 ^ 0) with 1.
    change (2 ^ (7 - 0 + 1)) with 256. change (2 ^ (15 - 8 + 1)) with 256.
    change (2 ^ (1 - 0 + 1)) with 4. change (2 ^ 2) with 4.
    change (2 ^ (31 - 16 + 1)) with 65536.
    repeat split; Z.div_mod_to_equations; lia.
Qed.

(** Property X3. Taking the word apart again gives back the bytes that were read: bits
    [7:0] are byte 0 and bits [15:8] byte 1; in the 32-bit form bits
    [23:16] and [31:24] are bytes 2 and 3, in the compressed form bits
    [31:16] are zero.  The quadrant, bits [1:0], is that of byte 0. *)
Theorem getInsn_bytes (p : Z -> byte) :
  let insn := fst (getInsn p) in
  SLICE_UInt insn 7 0 = UChar_val (p 0)
  /\ SLICE_UInt insn 15 8 = UChar_val (p 1)
  /\ SLICE_UInt insn 1 0 = Z.land (UChar_val (p 0)) 3
  /\ if Z.land (UChar_val (p 0)) 3 =? 3
     then SLICE_UInt insn 23 16 = UChar_val (p 2)
          /\ SLICE_UInt insn 31 24 = UChar_val (p 3)
     else SLICE_UInt insn 31 16 = 0.
Proof. exact (getInsn_fields p). Qed.

(** Property X4. The word depends on the bytes at offsets 0 to 3 only, and for a
    compressed instruction on those at offsets 0 and 1 only. *)
Theorem getInsn_local (p q : Z -> byte) :
  p 0 = q 0 -> p 1 = q 1 ->
  Z.land (UChar_val (p 0)) 3 <> 3 \/ (p 2 = q 2 /\ p 3 = q 3) ->
  getInsn p = getInsn q.
Proof.
  intros E0 E1 H.
  destruct (Z.eq_dec (Z.land (UChar_val (p 0)) 3) 3) as [Hc | Hc].
  - destruct H as [H | [E2 E3]]; [contradiction|].
    apply getInsn_window. intros i Hi.
    assert (i = 0 \/ i = 1 \/ i = 2 \/ i = 3) as [-> | [-> | [-> | ->]]]
      by lia; assumption.
  - rewrite (getInsn_compressed p Hc). rewrite E0 in Hc.
    rewrite (getInsn_compressed q Hc). rewrite E0, E1. reflexivity.
Qed.

(** ** Sign extension beyond the claimed range *)

(** Property X5. With a width outside 2..63 the assertion fails; with a width inside it
    [sx_to_64] returns for every 64-bit [x], looks at the low [n] bits of
    [x] only, and truncating the result to [n] bits gives those bits
    back. *)
Theorem sx_to_64_width (x n : Z) :
  (n <= 1 \/ 64 <= n -> sx_to_64 x n = Abort "n > 1 && n < 64")
  /\ (1 < n < 64 ->
      sx_to_64 x n = Ok (sx_value (x mod 2 ^ n) n)
      /\ sx_to_64 x n = sx_to_64 (x mod 2 ^ n) n
      /\ sx_value (x mod 2 ^ n) n mod 2 ^ n = x mod 2 ^ n).
Proof.
  split.
  - intros Hn. unfold sx_to_64.
    destruct (Z.ltb_spec 1 n); destruct (Z.ltb_spec n 64);
      try reflexivity; lia.
  - intros Hn.
    destruct (sx_powers n Hn) as (Hk & H64 & H63 & Hhalf & Hpos).
    assert (Hpn : 0 < 2 ^ n) by (apply Z.pow_pos_nonneg; lia).
    pose proof (Z.mod_pos_bound x (2 ^ n) Hpn) as Hm.
    assert (Hsh : shl_ULong x (64 - n) = shl_ULong (x mod 2 ^ n) (64 - n)).
    { unfold shl_ULong, to_ULong. rewrite !Z.shiftl_mul_pow2 by lia.
      rewrite <- H64. rewrite Z.mul_mod_distr_r by lia.
      rewrite (Z.mod_small (x mod 2 ^ n * 2 ^ (64 - n))); [reflexivity|].
      split; [apply Z.mul_nonneg_nonneg; lia|].
      apply Z.mul_lt_mono_pos_r; lia. }
    assert (Heq : sx_to_64 x n = sx_to_64 (x mod 2 ^ n) n).
    { unfold sx_to_64. rewrite Hsh. reflexivity. }
    split; [rewrite Heq; apply sx_to_64_value; assumption|].
    split; [exact Heq|].
    unfold sx_value.
    destruct (Z.ltb_spec (x mod 2 ^ n) (2 ^ (n - 1))).
    + apply Z.mod_small. exact Hm.
    + replace (x mod 2 ^ n + (2 ^ 64 - 2 ^ n))
        with (x mod 2 ^ n + (2 ^ (64 - n) - 1) * 2 ^ n) by lia.
      rewrite Z.mod_add by lia. apply Z.mod_small. exact Hm.
Qed.

(** Property X6. The signed reading of a sign-extended [n]-bit value lies in
    [-2^(n-1), 2^(n-1)) and differs from the value by a multiple of
    [2^n]: it is the value itself when bit [n-1] is clear and the value
    minus [2^n] when it is set. *)
Theorem sx_to_64_signed_range (x n : Z) :
  1 < n < 64 -> 0 <= x < 2 ^ n ->
  exists r : Z,
    sx_to_64 x n = Ok r
    /\ - 2 ^ (n - 1) <= to_Long r < 2 ^ (n - 1)
    /\ to_Long r = (if Z.testbit x (n - 1) then x - 2 ^ n else x).
Proof.
  intros Hn Hx. exists (sx_value x n).
  split; [apply sx_to_64_value; assumption|].
  destruct (sx_powers n Hn) as (Hk & H64 & H63 & Hhalf & Hpos).
  assert (Hw : 2 ^ n <= 2 ^ 63) by (apply pow2_le_mono; lia).
  unfold sx_value.
  destruct (Z.ltb_spec x (2 ^ (n - 1))) as [Hlt | Hge].
  - rewrite (testbit_below_pow2 x (n - 1) (n - 1)) by lia.
    rewrite to_Long_small by lia. lia.
  - rewrite testbit_top by lia.
    rewrite to_Long_high by lia. lia.
Qed.

(** ** The register file *)

Lemma offsetIReg64_cases (iregNo : Z) :
  offsetIReg64 iregNo
  = if (0 <=? iregNo) && (iregNo <? 32) then Ok (guest_x iregNo)
    else Abort "0".
Proof.
  destruct iregNo as [|p|p]; try reflexivity.
  do 6 (try destruct p as [p|p|]); reflexivity.
Qed.

(** Property X7. [offsetIReg64] returns the offset of register [iregNo] exactly for the
    32 register numbers and runs into [vassert(0)] for every other
    number. *)
Theorem offsetIReg64_domain (iregNo : Z) :
  offsetIReg64 iregNo
  = if (0 <=? iregNo) && (iregNo <? 32) then Ok (guest_x iregNo)
    else Abort "0".
Proof. exact (offsetIReg64_cases iregNo). Qed.

Lemma names_NoDup : NoDup names.
Proof. apply (bool_decide_unpack _). vm_compute. exact I. Qed.

Lemma names_lookup (iregNo : Z) :
  0 <= iregNo < 32 ->
  exists name : string,
    names !! Z.to_nat iregNo = Some name /\ nameIReg64 iregNo = Ok name.
Proof.
  intros Hr.
  destruct (lookup_lt_is_Some_2 names (Z.to_nat iregNo)) as [name Hname].
  { change (length names) with 32%nat. lia. }
  exists name. split; [exact Hname|].
  unfold nameIReg64, vassert_Res.
  destruct (Z.ltb_spec iregNo 32); [|lia].
  cbn [bind ret Res_Monad]. rewrite Hname. reflexivity.
Qed.

(** Property X8. Every register number below 32 has an ABI name, the name is not empty,
    and two registers with the same name are the same register; a number
    from 32 on fails the assertion. *)
Theorem nameIReg64_injective (r1 r2 : Z) :
  0 <= r1 < 32 -> 0 <= r2 ->
  (32 <= r2 -> nameIReg64 r2 = Abort "iregNo < 32")
  /\ (exists name : string, nameIReg64 r1 = Ok name /\ name <> EmptyString)
  /\ (nameIReg64 r1 = nameIReg64 r2 -> r1 = r2).
Proof.
  intros H1 H2.
  destruct (names_lookup r1 H1) as (n1 & L1 & N1).
  split; [|split].
  - intros Hbig. unfold nameIReg64, vassert_Res.
    destruct (Z.ltb_spec r2 32); [lia | reflexivity].
  - exists n1. split; [exact N1|]. intros ->.
    apply list_elem_of_lookup_2 in L1. revert L1. clear.
    unfold names. rewrite !elem_of_cons, elem_of_nil.
    intros H. repeat (destruct H as [H | H]; [discriminate|]). exact H.
  - intros Heq. destruct (Z.lt_ge_cases r2 32) as [Hlt | Hge].
    + destruct (names_lookup r2 (conj H2 Hlt)) as (n2 & L2 & N2).
      rewrite N1, N2 in Heq. injection Heq as ->.
      pose proof (NoDup_lookup names _ _ _ names_NoDup L1 L2). lia.
    + rewrite N1 in Heq. unfold nameIReg64, vassert_Res in Heq.
      destruct (Z.ltb_spec r2 32); [lia | discriminate].
Qed.

Lemma putIReg64_cases (iregNo : Z) (e : IRExpr) (s : VexState) :
  putIReg64 iregNo e s
  = if bool_decide (typeOfIRExpr (tyenv (irsb s)) e = Ity_I64) then
      if (0 <=? iregNo) && (iregNo <? 32) then
        Ok (tt, mkVexState (dres s)
                  (mkIRSB (tyenv (irsb s))
                          (stmts (irsb s) ++ [IRStmt_Put (guest_x iregNo) e]))
                  (vex_traceflags s) (vex_out s))
      else Abort "0"
    else Abort "typeOfIRExpr(irsb->tyenv, e) == Ity_I64".
Proof.
  destruct s as [d bb tf out]. unfold putIReg64, vassert, stmt.
  cbn [bind ret M_Monad get_state dres irsb vex_traceflags vex_out].
  destruct (bool_decide (typeOfIRExpr (tyenv bb) e = Ity_I64));
    [|reflexivity].
  rewrite offsetIReg64_cases.
  destruct ((0 <=? iregNo) && (iregNo <? 32)); reflexivity.
Qed.

(** Property X9. [putIReg64] checks the type of the expression first and the register
    number second; when both are right it appends exactly the write of
    the expression to the register and changes nothing else. *)
Theorem putIReg64_run (iregNo : Z) (e : IRExpr) (s : VexState) :
  putIReg64 iregNo e s
  = if bool_decide (typeOfIRExpr (tyenv (irsb s)) e = Ity_I64) then
      if (0 <=? iregNo) && (iregNo <? 32) then
        Ok (tt, mkVexState (dres s)
                  (mkIRSB (tyenv (irsb s))
                          (stmts (irsb s) ++ [IRStmt_Put (guest_x iregNo) e]))
                  (vex_traceflags s) (vex_out s))
      else Abort "0"
    else Abort "typeOfIRExpr(irsb->tyenv, e) == Ity_I64".
Proof. exact (putIReg64_cases iregNo e s). Qed.

(** Property X10. A register read can be written back to any register: for register
    numbers below 32 the read has type [Ity_I64], so the write passes its
    type check and the block gains the one statement that copies one
    register to the other. *)
Theorem getIReg64_putIReg64 (src dst : Z) (s : VexState) :
  0 <= src < 32 -> 0 <= dst < 32 ->
  (e <- lift (getIReg64 src);; putIReg64 dst e) s
  = Ok (tt, mkVexState (dres s)
              (mkIRSB (tyenv (irsb s))
                      (stmts (irsb s)
                       ++ [IRStmt_Put (guest_x dst)
                             (IRExpr_Get (guest_x src) Ity_I64)]))
              (vex_traceflags s) (vex_out s)).
Proof.
  intros Hs Hd. unfold getIReg64, vassert_Res.
  destruct (Z.ltb_spec src 32); [|lia].
  rewrite offsetIReg64_cases.
  destruct (Z.leb_spec 0 src); [|lia]. destruct (Z.ltb_spec src 32); [|lia].
  cbn [andb bind ret Res_Monad M_Monad lift].
  rewrite putIReg64_cases. cbn [typeOfIRExpr].
  change (bool_decide (Ity_I64 = Ity_I64)) with true. cbv iota.
  destruct (Z.leb_spec 0 dst); [|lia]. destruct (Z.ltb_spec dst 32); [|lia].
  reflexivity.
Qed.

(** ** The diagnostics of a decode *)

Lemma dis_RISCV64_compressed_01_full (insn : Z) (sigill_diag : bool)
    (s : VexState) :
  dis_RISCV64_compressed_01 insn sigill_diag s
  = Ok (C_LUI_valid insn,
        mkVexState (dres s)
          (if C_LUI_valid insn
           then addStmtToIRSB (irsb s) (C_LUI_stmt insn) else irsb s)
          (vex_traceflags s)
          (vex_out s
           ++ (if C_LUI_valid insn
               then (if tracing s then [C_LUI_line insn] else [])
               else if sigill_diag
                    then [mkPrinted "RISCV64 front end: compressed_01\n" []]
                    else []))).
Proof.
  destruct s as [d bb tf out]. unfold tracing. cbn [vex_traceflags].
  unfold dis_RISCV64_compressed_01. cbv zeta beta.
  fold (C_LUI_rd insn) (C_LUI_nzimm insn). unfold C_LUI_valid.
  destruct (SLICE_UInt insn 15 13 =? BITS3 0 1 1); cbn [andb].
  2:{ destruct sigill_diag; cbn; rewrite ?app_nil_r; reflexivity. }
  destruct ((C_LUI_rd insn =? 0) || (C_LUI_rd insn =? 2)
            || (C_LUI_nzimm insn =? 0)); cbn [negb].
  { destruct sigill_diag; cbn; rewrite ?app_nil_r; reflexivity. }
  rewrite sx_to_64_value by (try apply C_LUI_nzimm_range; lia).
  unfold putIReg64.
  rewrite offsetIReg64_Ok by apply C_LUI_rd_range.
  unfold DIP, nameIReg64, vassert_Res.
  pose proof (C_LUI_rd_range insn) as Hrd.
  destruct (Z.ltb_spec (C_LUI_rd insn) 32); [|lia].
  unfold C_LUI_stmt, C_LUI_line.
  cbn [bind ret M_Monad Res_Monad get_state lift vassert stmt set_irsb
       vex_printf typeOfIRExpr typeOfIRConst mkU64 dres irsb vex_traceflags
       vex_out tyenv].
  change (bool_decide (Ity_I64 = Ity_I64)) with true.
  cbn [bind ret M_Monad Res_Monad get_state lift vassert stmt set_irsb
       vex_printf dres irsb vex_traceflags vex_out tyenv].
  destruct (negb (Z.land tf VEX_TRACE_FE =? 0));
    cbn [bind ret M_Monad Res_Monad lift vex_printf dres irsb vex_traceflags
         vex_out];
    rewrite ?app_nil_r; reflexivity.
Qed.

Lemma dispatch_quadrant_full (insn : Z) (sigill_diag : bool)
    (s : VexState) :
  dispatch_quadrant insn sigill_diag s
  = Ok (decodable insn,
        mkVexState (dres s)
          (if decodable insn
           then addStmtToIRSB (irsb s) (C_LUI_stmt insn) else irsb s)
          (vex_traceflags s)
          (vex_out s
           ++ (if decodable insn
               then (if tracing s then [C_LUI_line insn] else [])
               else if sigill_diag then quadrant_line insn else []))).
Proof.
  unfold dispatch_quadrant, decodable, quadrant_line. cbv zeta beta.
  pose proof (SLICE_UInt_range insn 1 0) as Hq.
  change (2 ^ (1 - 0 + 1)) with 4 in Hq.
  change X00 with 0. change X01 with 1. change X10 with 2.
  change X11 with 3.
  destruct (Z.eqb_spec (SLICE_UInt insn 1 0) 0) as [E0 | N0].
  { rewrite E0. cbn [Z.eqb andb]. destruct s as [d bb tf out].
    destruct sigill_diag; cbn; rewrite ?app_nil_r; reflexivity. }
  destruct (Z.eqb_spec (SLICE_UInt insn 1 0) 1) as [E1 | N1].
  { cbn [andb]. rewrite dis_RISCV64_compressed_01_full.
    destruct (C_LUI_valid insn); reflexivity. }
  cbn [andb].
  destruct (Z.eqb_spec (SLICE_UInt insn 1 0) 2) as [E2 | N2].
  { destruct s as [d bb tf out].
    destruct sigill_diag; cbn; rewrite ?app_nil_r; reflexivity. }
  destruct (Z.eqb_spec (SLICE_UInt insn 1 0) 3) as [E3 | N3].
  { destruct s as [d bb tf out].
    destruct sigill_diag; cbn; rewrite ?app_nil_r; reflexivity. }
  lia.
Qed.

Lemma disInstr_RISCV64_WRK_full (guest_instr : Z -> byte)
    (guest_pc_curr_instr : Z) (sigill_diag : bool) (s : VexState) :
  let insn := fst (getInsn guest_instr) in
  0 = Z.land guest_pc_curr_instr 3 ->
  disInstr_RISCV64_WRK guest_instr guest_pc_curr_instr sigill_diag s
  = Ok (decodable insn,
        mkVexState DisResult_default
          (if decodable insn
           then addStmtToIRSB (irsb s) (C_LUI_stmt insn) else irsb s)
          (vex_traceflags s)
          (vex_out s
           ++ disInstr_RISCV64_WRK_output (tracing s) sigill_diag
                guest_pc_curr_instr insn)).
Proof.
  intros insn Hpc. destruct s as [d bb tf out].
  unfold disInstr_RISCV64_WRK, disInstr_RISCV64_WRK_with. fold insn.
  unfold set_whatNext, set_len, set_jk_StopHere, set_hint, DIP.
  cbn [bind ret M_Monad get_state set_dres dres irsb vex_traceflags vex_out
       len whatNext hint jk_StopHere].
  fold DisResult_default.
  rewrite <- Hpc. change (0 =? 0) with true.
  unfold disInstr_RISCV64_WRK_output, tracing. cbn [vex_traceflags].
  destruct (negb (Z.land tf VEX_TRACE_FE =? 0)) eqn:Htr;
    cbn [bind ret M_Monad vex_printf vassert dres irsb vex_traceflags
         vex_out];
    rewrite dispatch_quadrant_full;
    unfold tracing; cbn [dres irsb vex_traceflags vex_out];
    rewrite Htr, check_dres_unchanged_default;
    cbn [bind ret M_Monad]; rewrite <- ?app_assoc; reflexivity.
Qed.

Lemma disInstr_RISCV64_lines (guest_code : Z -> byte)
    (delta guest_IP : Z) (sigill_diag : bool) (s s' : VexState)
    (d : DisResult) :
  disInstr_RISCV64 guest_code delta guest_IP VexArchRISCV64 sigill_diag s
  = Ok (d, s') ->
  vex_traceflags s' = vex_traceflags s
  /\ vex_out s'
     = vex_out s
       ++ disInstr_RISCV64_output (tracing s) sigill_diag guest_IP
            (fst (getInsn (offset_ptr guest_code delta))).
Proof.
  intros Hrun. rewrite disInstr_RISCV64_unfold in Hrun.
  destruct (Z.eq_dec 0 (Z.land guest_IP 3)) as [Hpc | Hpc].
  2:{ pose proof (disInstr_RISCV64_WRK_run (offset_ptr guest_code delta)
                    guest_IP sigill_diag
                    (mkVexState DisResult_zero (irsb s) (vex_traceflags s)
                                (vex_out s))) as Hw.
      cbv zeta in Hw. destruct (Z.eqb_spec 0 (Z.land guest_IP 3)); [lia|].
      rewrite Hw in Hrun. discriminate. }
  rewrite (disInstr_RISCV64_WRK_full _ _ _ _ Hpc) in Hrun.
  unfold disInstr_RISCV64_output.
  destruct s as [d0 bb tf out]. unfold tracing in *.
  cbn [dres irsb vex_traceflags vex_out] in *.
  set (insn := fst (getInsn (offset_ptr guest_code delta))) in *.
  destruct (decodable insn).
  - unfold decode_success, DIP, stmt, vassert in Hrun.
    cbn [bind ret M_Monad get_state set_irsb dres irsb vex_traceflags vex_out
         len whatNext DisResult_default Z.eqb Pos.eqb orb] in Hrun.
    destruct (negb (Z.land tf VEX_TRACE_FE =? 0));
      cbn [bind ret M_Monad vex_printf dres irsb vex_traceflags vex_out]
        in Hrun;
      injection Hrun as _ <-; cbn [vex_traceflags vex_out];
      rewrite <- ?app_assoc, ?app_nil_r; split; reflexivity.
  - unfold decode_failure, stmt, set_len, set_whatNext, set_jk_StopHere
      in Hrun.
    fold insn in Hrun.
    destruct sigill_diag;
      cbn [bind ret M_Monad get_state set_irsb set_dres vex_printf dres irsb
           vex_traceflags vex_out len whatNext hint jk_StopHere] in Hrun;
      injection Hrun as _ <-; cbn [vex_traceflags vex_out];
      rewrite <- ?app_assoc, ?app_nil_r; split; reflexivity.
Qed.

(** Property X11. [disInstr_RISCV64] only adds to the diagnostics and
    leaves the trace flags alone: what was printed before stays, and at
    most four lines follow.  When a decode fails under [sigill_diag], the
    last two of them carry the word that was not decoded and its binary
    dump. *)
Theorem disInstr_RISCV64_prints (guest_code : Z -> byte)
    (delta guest_IP : Z) (sigill_diag : bool) (s s' : VexState)
    (d : DisResult) :
  disInstr_RISCV64 guest_code delta guest_IP VexArchRISCV64 sigill_diag s
  = Ok (d, s') ->
  let insn := fst (getInsn (offset_ptr guest_code delta)) in
  vex_traceflags s' = vex_traceflags s
  /\ exists lines : list Printed,
       vex_out s' = vex_out s ++ lines
       /\ (length lines <= 4)%nat
       /\ (sigill_diag = true -> len d = 0 ->
           exists (before : list Printed) (fmt1 fmt2 : string),
             lines
             = before
               ++ [mkPrinted fmt1 [Arg_int insn];
                   mkPrinted fmt2 [Arg_str (c_string (dump_insn insn))]]).
Proof.
  intros Hrun insn.
  destruct (disInstr_RISCV64_lines _ _ _ _ _ _ _ Hrun) as [Hf Ho].
  fold insn in Ho. split; [exact Hf|].
  exists (disInstr_RISCV64_output (tracing s) sigill_diag guest_IP insn).
  split; [exact Ho|].
  pose proof (disInstr_RISCV64_run guest_code delta guest_IP VexArchRISCV64
                sigill_diag s) as Hv.
  rewrite Hrun in Hv. cbn [visible] in Hv.
  unfold disInstr_RISCV64_visible in Hv. cbv zeta in Hv. fold insn in Hv.
  change (bool_decide (VexArchRISCV64 = VexArchRISCV64)) with true in Hv.
  cbv iota in Hv.
  destruct (0 =? Z.land guest_IP 3); [|discriminate].
  unfold disInstr_RISCV64_output, disInstr_RISCV64_WRK_output, quadrant_line.
  cbv zeta.
  destruct (decodable insn).
  - injection Hv as -> _ _. split.
    + destruct (tracing s); cbn; lia.
    + intros _ Hlen. cbn [len DisResult_default] in Hlen.
      discriminate Hlen.
  - split.
    + destruct (tracing s); destruct sigill_diag;
        repeat match goal with
               | |- context [if ?b then _ else _] => destruct b
               end; cbn; lia.
    + intros -> _. eexists. eexists. eexists. reflexivity.
Qed.

(** Property X12. With the trace bit clear and [sigill_diag] off a decode prints
    nothing, whether it succeeds or not. *)
Theorem disInstr_RISCV64_quiet (guest_code : Z -> byte)
    (delta guest_IP : Z) (guest_arch : VexArch) (s s' : VexState)
    (d : DisResult) :
  Z.land (vex_traceflags s) VEX_TRACE_FE = 0 ->
  disInstr_RISCV64 guest_code delta guest_IP guest_arch false s
  = Ok (d, s') ->
  vex_out s' = vex_out s /\ vex_traceflags s' = vex_traceflags s.
Proof.
  intros Htr Hrun.
  destruct (decide (guest_arch = VexArchRISCV64)) as [-> | Ha].
  2:{ rewrite disInstr_RISCV64_wrong_arch in Hrun by exact Ha.
      discriminate. }
  destruct (disInstr_RISCV64_lines _ _ _ _ _ _ _ Hrun) as [Hf Ho].
  split; [|exact Hf]. rewrite Ho.
  unfold disInstr_RISCV64_output, disInstr_RISCV64_WRK_output, tracing.
  rewrite Htr. cbn [Z.eqb negb].
  destruct (decodable _); cbn [app]; apply app_nil_r.
Qed.

(** ** What is decoded and what is left behind *)

Lemma decodable_quadrant (p : Z -> byte) :
  decodable (fst (getInsn p)) = true -> Z.land (UChar_val (p 0)) 3 = 1.
Proof.
  unfold decodable. intros H. apply andb_true_iff in H as [Hq _].
  destruct (getInsn_fields p) as (_ & _ & Hq' & _).
  rewrite <- Hq'. apply Z.eqb_eq in Hq. exact Hq.
Qed.

(** Property X13. Only quadrant 01 holds an instruction the front end decodes: whenever
    the low two bits of the first byte are 00, 10 or 11, so for every
    32-bit instruction, the decode fails with the no-decode result and a
    single program-counter write of the instruction's own address. *)
Theorem only_quadrant_01_decodes (guest_code : Z -> byte)
    (delta guest_IP : Z) (sigill_diag : bool) (s : VexState) :
  Z.land (UChar_val (guest_code (delta + 0))) 3 <> 1 ->
  guest_IP mod 4 = 0 ->
  visible (disInstr_RISCV64 guest_code delta guest_IP VexArchRISCV64
                            sigill_diag s)
  = Ok (mkDisResult 0 Dis_StopHere Dis_HintNone Ijk_NoDecode,
        mkDisResult 0 Dis_StopHere Dis_HintNone Ijk_NoDecode,
        mkIRSB (tyenv (irsb s))
               (stmts (irsb s)
                ++ [IRStmt_Put guest_pc
                      (IRExpr_Const (IRConst_U64 (guest_IP mod 2 ^ 64)))])).
Proof.
  intros Hq Hpc. rewrite disInstr_RISCV64_run.
  unfold disInstr_RISCV64_visible. cbv zeta.
  change (bool_decide (VexArchRISCV64 = VexArchRISCV64)) with true.
  rewrite land_3_mod_4, Hpc. cbn [Z.eqb]. cbv iota.
  destruct (decodable (fst (getInsn (offset_ptr guest_code delta)))) eqn:Hd.
  - apply decodable_quadrant in Hd. unfold offset_ptr in Hd. contradiction.
  - reflexivity.
Qed.

(** Property X14. Whenever [disInstr_RISCV64] returns, the result is the [DisResult] left
    in the state and is one of two values, the defaults (length 4,
    continue) or the no-decode result (length 0, stop, [Ijk_NoDecode]).
    The block keeps its type environment and its old statements, gains at
    most one statement of the instruction and then, last, the write of
    [guest_IP + len] to the program counter. *)
Theorem disInstr_RISCV64_pc_write (guest_code : Z -> byte)
    (delta guest_IP : Z) (guest_arch : VexArch) (sigill_diag : bool)
    (s s' : VexState) (d : DisResult) :
  disInstr_RISCV64 guest_code delta guest_IP guest_arch sigill_diag s
  = Ok (d, s') ->
  dres s' = d
  /\ (d = mkDisResult 4 Dis_Continue Dis_HintNone Ijk_INVALID
      \/ d = mkDisResult 0 Dis_StopHere Dis_HintNone Ijk_NoDecode)
  /\ tyenv (irsb s') = tyenv (irsb s)
  /\ exists pre : list IRStmt,
       (length pre <= 1)%nat
       /\ stmts (irsb s')
          = stmts (irsb s) ++ pre
            ++ [IRStmt_Put guest_pc
                  (IRExpr_Const
                     (IRConst_U64 ((guest_IP + len d) mod 2 ^ 64)))].
Proof.
  intros Hrun.
  pose proof (disInstr_RISCV64_run guest_code delta guest_IP guest_arch
                sigill_diag s) as Hv.
  assert (Hd : dres s' = d).
  { destruct (decide (guest_arch = VexArchRISCV64)) as [-> | Ha].
    2:{ rewrite disInstr_RISCV64_wrong_arch in Hrun by exact Ha.
        discriminate. }
    rewrite disInstr_RISCV64_unfold in Hrun.
    destruct (disInstr_RISCV64_WRK _ _ _ _) as [[ok s1] | w];
      [|discriminate].
    match type of Hrun with
    | match ?r with Ok _ => _ | Abort _ => _ end = _ =>
        destruct r as [[u s2] | w]; [|discriminate]
    end.
    injection Hrun as <- <-. reflexivity. }
  rewrite Hrun in Hv. cbn [visible] in Hv.
  unfold disInstr_RISCV64_visible in Hv. cbv zeta in Hv.
  destruct (bool_decide (guest_arch = VexArchRISCV64)); [|discriminate].
  destruct (0 =? Z.land guest_IP 3); [|discriminate].
  split; [exact Hd|].
  destruct (decodable _); injection Hv as -> _ ->.
  - split; [left; reflexivity|]. split; [reflexivity|].
    exists [C_LUI_stmt (fst (getInsn (offset_ptr guest_code delta)))].
    split; [cbn; lia|].
    cbn [addStmtToIRSB stmts tyenv len DisResult_default].
    rewrite <- app_assoc. reflexivity.
  - split; [right; reflexivity|]. split; [reflexivity|].
    exists []. split; [cbn; lia|].
    cbn [addStmtToIRSB stmts tyenv len DisResult_NoDecode app].
    unfold add_Addr. rewrite Z.add_0_r. reflexivity.
Qed.

(** Property X15. [disInstr_RISCV64] can fail two assertions and no other: the one on the
    architecture, checked first, and the one on the alignment of the
    program counter.  For the riscv64 architecture and an aligned program
    counter it returns, whatever the bytes are. *)
Theorem disInstr_RISCV64_assertions (guest_code : Z -> byte)
    (delta guest_IP : Z) (guest_arch : VexArch) (sigill_diag : bool)
    (s : VexState) :
  (guest_arch <> VexArchRISCV64 ->
   disInstr_RISCV64 guest_code delta guest_IP guest_arch sigill_diag s
   = Abort "guest_arch == VexArchRISCV64")
  /\ (guest_arch = VexArchRISCV64 -> guest_IP mod 4 <> 0 ->
      disInstr_RISCV64 guest_code delta guest_IP guest_arch sigill_diag s
      = Abort "0 == (guest_pc_curr_instr & 3ULL)")
  /\ (guest_arch = VexArchRISCV64 -> guest_IP mod 4 = 0 ->
      exists (d : DisResult) (s' : VexState),
        disInstr_RISCV64 guest_code delta guest_IP guest_arch sigill_diag s
        = Ok (d, s')).
Proof.
  split; [apply disInstr_RISCV64_wrong_arch|].
  pose proof (disInstr_RISCV64_run guest_code delta guest_IP VexArchRISCV64
                sigill_diag s) as Hv.
  unfold disInstr_RISCV64_visible in Hv. cbv zeta in Hv.
  change (bool_decide (VexArchRISCV64 = VexArchRISCV64)) with true in Hv.
  rewrite land_3_mod_4 in Hv.
  split; intros -> Hpc.
  - destruct (Z.eqb_spec 0 (guest_IP mod 4)); [lia|].
    destruct (disInstr_RISCV64 _ _ _ _ _ _) as [[d s'] | w];
      [discriminate|].
    cbn [visible] in Hv. congruence.
  - rewrite Hpc in Hv. cbn [Z.eqb] in Hv.
    destruct (disInstr_RISCV64 _ _ _ _ _ _) as [[d s'] | w]; [eauto|].
    destruct (decodable _); discriminate.
Qed.

(** Property X16. The decode looks at nothing but the four bytes at [guest_code + delta],
    the program counter, the architecture and the block: two calls whose
    windows hold the same four bytes leave the same result and the same
    block, or fail the same assertion, whatever [DisResult], flags and
    diagnostics they start from. *)
Theorem disInstr_RISCV64_local (code1 code2 : Z -> byte)
    (delta1 delta2 guest_IP : Z) (guest_arch : VexArch)
    (sigill_diag1 sigill_diag2 : bool) (s1 s2 : VexState) :
  (forall i : Z, 0 <= i <= 3 -> code1 (delta1 + i) = code2 (delta2 + i)) ->
  irsb s1 = irsb s2 ->
  visible (disInstr_RISCV64 code1 delta1 guest_IP guest_arch sigill_diag1 s1)
  = visible (disInstr_RISCV64 code2 delta2 guest_IP guest_arch sigill_diag2
               s2).
Proof.
  intros Hw Hb. rewrite !disInstr_RISCV64_run.
  unfold disInstr_RISCV64_visible.
  rewrite (getInsn_window (offset_ptr code1 delta1)
                          (offset_ptr code2 delta2)) by exact Hw.
  rewrite Hb. reflexivity.
Qed.

(** ** The immediate of a decoded load-upper-immediate *)

(** Property X17. Whenever the worker decodes an instruction it has appended exactly one
    statement, the write of a constant to one of the registers 1 and 3 to
    31.  The constant is a nonzero multiple of 4096 below [2^64] whose bits
    17 to 63 are all equal, and its signed reading lies in
    [-2^17, 2^17). *)
Theorem decoded_write_shape (guest_instr : Z -> byte)
    (guest_pc_curr_instr : Z) (sigill_diag : bool) (s s' : VexState) :
  disInstr_RISCV64_WRK guest_instr guest_pc_curr_instr sigill_diag s
  = Ok (true, s') ->
  exists rd imm : Z,
    irsb s'
    = mkIRSB (tyenv (irsb s))
             (stmts (irsb s)
              ++ [IRStmt_Put (guest_x rd) (IRExpr_Const (IRConst_U64 imm))])
    /\ 1 <= rd < 32 /\ rd <> 2
    /\ 0 < imm < 2 ^ 64 /\ imm mod 4096 = 0
    /\ (forall i : Z, 17 <= i < 64 -> Z.testbit imm i = Z.testbit imm 17)
    /\ - 2 ^ 17 <= to_Long imm < 2 ^ 17.
Proof.
  intros Hrun.
  pose proof (disInstr_RISCV64_WRK_run guest_instr guest_pc_curr_instr
                sigill_diag s) as Hw.
  cbv zeta in Hw. rewrite Hrun in Hw.
  destruct (0 =? Z.land guest_pc_curr_instr 3); [|discriminate].
  destruct Hw as [out Hw]. injection Hw as Hd ->.
  set (insn := fst (getInsn guest_instr)) in *.
  rewrite <- Hd. cbn [irsb].
  symmetry in Hd. unfold decodable, C_LUI_valid in Hd.
  apply andb_true_iff in Hd as [_ Hd]. apply andb_true_iff in Hd as [_ Hd].
  apply negb_true_iff in Hd.
  apply orb_false_iff in Hd as [Hd Hz]. apply orb_false_iff in Hd as [H0 H2].
  apply Z.eqb_neq in H0, H2, Hz.
  pose proof (C_LUI_rd_range insn) as Hrd.
  pose proof (C_LUI_nzimm_range insn) as Hn.
  pose proof (C_LUI_nzimm_value insn) as Hv.
  pose proof (SLICE_UInt_range insn 12 12) as Hb.
  pose proof (SLICE_UInt_range insn 6 2) as Hf.
  change (2 ^ (12 - 12 + 1)) with 2 in Hb.
  change (2 ^ (6 - 2 + 1)) with 32 in Hf.
  change (2 ^ 17) with 131072 in *. change (2 ^ 12) with 4096 in Hv.
  change (2 ^ 18) with 262144 in Hn.
  exists (C_LUI_rd insn), (sx_value (C_LUI_nzimm insn) 18).
  split; [reflexivity|]. split; [lia|]. split; [exact H2|].
  assert (Hbits : forall i, 0 <= i < 64 ->
            Z.testbit (sx_value (C_LUI_nzimm insn) 18) i
            = if i <? 18 then Z.testbit (C_LUI_nzimm insn) i
              else Z.testbit (C_LUI_nzimm insn) (18 - 1)).
  { intros i Hi. apply sx_value_bits; [lia | | lia].
    change (2 ^ 18) with 262144. exact Hn. }
  unfold sx_value in *. change (2 ^ (18 - 1)) with 131072 in *.
  change (2 ^ 18) with 262144 in *.
  destruct (Z.ltb_spec (C_LUI_nzimm insn) 131072) as [Hlt | Hge].
  - split; [lia|]. split; [Z.div_mod_to_equations; lia|]. split.
    + intros i Hi.
      rewrite (testbit_below_pow2 (C_LUI_nzimm insn) 17 i)
        by (change (2 ^ 17) with 131072; lia).
      rewrite (testbit_below_pow2 (C_LUI_nzimm insn) 17 17)
        by (change (2 ^ 17) with 131072; lia).
      reflexivity.
    + rewrite to_Long_small by lia. lia.
  - split; [lia|]. split; [Z.div_mod_to_equations; lia|]. split.
    + intros i Hi. rewrite (Hbits i), (Hbits 17) by lia.
      destruct (Z.ltb_spec i 18); destruct (Z.ltb_spec 17 18); try lia;
        f_equal; lia.
    + rewrite to_Long_high by lia. lia.
Qed.

(** ** The binary dump of an undecoded word *)

Lemma land_pow2_testbit (a k : Z) :
  0 <= k -> negb (Z.land a (2 ^ k) =? 0) = Z.testbit a k.
Proof.
  intros Hk.
  assert (H : Z.land a (2 ^ k) = if Z.testbit a k then 2 ^ k else 0).
  { apply Z.bits_inj'. intros n Hn. rewrite Z.land_spec, Z.pow2_bits_eqb by lia.
    destruct (Z.eqb_spec k n) as [-> | Hne].
    - destruct (Z.testbit a n); cbn [andb];
        [rewrite Z.pow2_bits_true by lia | rewrite Z.bits_0]; reflexivity.
    - rewrite andb_false_r.
      destruct (Z.testbit a k); [|rewrite Z.bits_0; reflexivity].
      rewrite Z.pow2_bits_false by lia. reflexivity. }
  rewrite H. assert (0 < 2 ^ k) by (apply Z.pow_pos_nonneg; lia).
  destruct (Z.testbit a k); [|reflexivity].
  destruct (Z.eqb_spec (2 ^ k) 0); [lia | reflexivity].
Qed.

(** One pass of the loop writes the digit of bit [31 - i]. *)
Lemma dump_bit_step (insn i : Z) (st : Z * list Z) :
  0 <= i < 32 ->
  dump_bit insn st i = dump_step (char_code (bit_char insn (31 - i))) st i.
Proof.
  intros Hi. destruct st as [j buf]. unfold dump_bit, dump_step, bit_char.
  rewrite Z.shiftl_1_l.
  rewrite to_UInt_small.
  2:{ split; [apply Z.pow_nonneg; lia|].
      apply Z.pow_lt_mono_r; lia. }
  rewrite land_pow2_testbit by lia.
  destruct (Z.testbit insn (31 - i)); reflexivity.
Qed.

Lemma fold_dump_bit (insn : Z) (l : list Z) (st : Z * list Z) :
  Forall (fun i : Z => 0 <= i < 32) l ->
  fold_left (dump_bit insn) l st
  = fold_left
      (fun st i => dump_step (char_code (bit_char insn (31 - i))) st i) l st.
Proof.
  intros Hl. revert st.
  induction Hl as [|i l Hi _ IH]; intros st; [reflexivity|].
  cbn [fold_left]. rewrite dump_bit_step by exact Hi. apply IH.
Qed.

(** The loop for any way [f] of turning a bit position into a digit. *)
Lemma dump_loop_digits (f : Z -> Z) :
  fold_left (fun st i => dump_step (f (31 - i)) st i)
            (map Z.of_nat (seq 0 32)) (0, replicate 64 0)
  = (39,
     [f 31; f 30; f 29; f 28; char_code "'"; f 27; f 26; f 25; f 24;
      char_code " ";
      f 23; f 22; f 21; f 20; char_code "'"; f 19; f 18; f 17; f 16;
      char_code " ";
      f 15; f 14; f 13; f 12; char_code "'"; f 11; f 10; f 9; f 8;
      char_code " ";
      f 7; f 6; f 5; f 4; char_code "'"; f 3; f 2; f 1; f 0]
     ++ replicate 25 0).
Proof. vm_compute. reflexivity. Qed.

Lemma dump_loop_run (insn : Z) :
  fold_left (dump_bit insn) (map Z.of_nat (seq 0 32)) (0, replicate 64 0)
  = (39, map char_code (binary_dump insn) ++ replicate 25 0).
Proof.
  rewrite fold_dump_bit.
  2:{ apply Forall_forall. intros i Hi.
      apply list_elem_of_fmap in Hi as (n & -> & Hn).
      apply elem_of_seq in Hn. lia. }
  rewrite (dump_loop_digits (fun k => char_code (bit_char insn k))).
  reflexivity.
Qed.

Lemma c_string_chars (l : list ascii) (rest : list Z) :
  Forall (fun c : ascii => c <> zero) l ->
  c_string (map char_code l ++ 0 :: rest) = string_of_list_ascii l.
Proof.
  induction 1 as [|c l Hc _ IH]; [reflexivity|].
  cbn [map app c_string string_of_list_ascii]. unfold char_code at 1 2.
  destruct (Z.eqb_spec (Z.of_N (N_of_ascii c)) 0) as [E | _].
  - exfalso. apply Hc. rewrite <- (ascii_N_embedding c).
    replace (N_of_ascii c) with 0%N by lia. reflexivity.
  - rewrite N2Z.id, ascii_N_embedding, IH. reflexivity.
Qed.

Lemma binary_dump_no_NUL (insn : Z) :
  Forall (fun c : ascii => c <> zero) (binary_dump insn).
Proof.
  unfold binary_dump, byte_digits, nibble_digits, bit_char. cbn [app].
  repeat constructor;
    try discriminate;
    match goal with
    | |- (if ?b then _ else _) <> _ => destruct b; discriminate
    end.
Qed.

(** Property X18. The loop that spells an undecoded word in binary stops with 39
    characters written, so inside the 64 bytes of [buf] and with zeros
    after them.  The text that [%s] then prints is the 32 bits of the
    word, most significant first, with an apostrophe between the nibbles of
    a byte and a space between bytes. *)
Theorem dump_insn_spells_word (insn : Z) :
  fst (fold_left (dump_bit insn) (map Z.of_nat (seq 0 32))
                 (0, replicate 64 0)) = 39
  /\ length (dump_insn insn) = 64%nat
  /\ c_string (dump_insn insn) = string_of_list_ascii (binary_dump insn)
  /\ String.length (c_string (dump_insn insn)) = 39%nat.
Proof.
  unfold dump_insn. rewrite dump_loop_run. cbn [fst snd].
  assert (Hs : c_string (map char_code (binary_dump insn) ++ replicate 25 0)
               = string_of_list_ascii (binary_dump insn)).
  { change (replicate 25 0) with (0 :: replicate 24 0).
    apply c_string_chars, binary_dump_no_NUL. }
  split; [reflexivity|]. split; [reflexivity|]. split; [exact Hs|].
  rewrite Hs. reflexivity.
Qed.

(** ** The accepted encodings *)

(** Property X19. The worker decodes a word exactly when it is a compressed
    load-upper-immediate: quadrant 01, bits [15:13] equal to 011, a
    destination register other than 0 and 2, and an immediate that is not
    zero. *)
Theorem disInstr_RISCV64_WRK_accepts (guest_instr : Z -> byte)
    (guest_pc_curr_instr : Z) (sigill_diag ok : bool) (s s' : VexState) :
  disInstr_RISCV64_WRK guest_instr guest_pc_curr_instr sigill_diag s
  = Ok (ok, s') ->
  let insn := fst (getInsn guest_instr) in
  ok = true
  <-> (SLICE_UInt insn 1 0 = X01 /\ SLICE_UInt insn 15 13 = BITS3 0 1 1
       /\ C_LUI_rd insn <> 0 /\ C_LUI_rd insn <> 2
       /\ C_LUI_nzimm insn <> 0).
Proof.
  intros Hrun insn.
  pose proof (disInstr_RISCV64_WRK_run guest_instr guest_pc_curr_instr
                sigill_diag s) as Hw.
  cbv zeta in Hw. fold insn in Hw. rewrite Hrun in Hw.
  destruct (0 =? Z.land guest_pc_curr_instr 3); [|discriminate].
  destruct Hw as [out Hw]. injection Hw as -> _.
  unfold decodable, C_LUI_valid.
  rewrite !andb_true_iff, negb_true_iff, !orb_false_iff.
  rewrite !Z.eqb_eq, !Z.eqb_neq. tauto.
Qed.

(** Property X20. The immediate is laid out as the encoding prescribes: its bit 17 is
    bit 12 of the word, its bits 16 to 12 are bits 6 to 2 of the word, and
    every other bit is clear. *)
Theorem C_LUI_nzimm_bits (insn i : Z) :
  0 <= i ->
  Z.testbit (C_LUI_nzimm insn) i
  = if i =? 17 then Z.testbit insn 12
    else if (12 <=? i) && (i <? 17) then Z.testbit insn (i - 10)
    else false.
Proof.
  intros Hi. unfold C_LUI_nzimm, shl_UInt.
  pose proof (SLICE_UInt_range insn 12 12) as H1.
  pose proof (SLICE_UInt_range insn 6 2) as H2.
  change (2 ^ (12 - 12 + 1)) with 2 in H1.
  change (2 ^ (6 - 2 + 1)) with 32 in H2.
  rewrite (to_UInt_small (Z.shiftl (SLICE_UInt insn 12 12) 17))
    by (rewrite Z.shiftl_mul_pow2 by lia; lia).
  rewrite (to_UInt_small (Z.shiftl (SLICE_UInt insn 6 2) 12))
    by (rewrite Z.shiftl_mul_pow2 by lia; lia).
  rewrite Z.lor_spec, !Z.shiftl_spec by lia.
  destruct (Z.eqb_spec i 17) as [-> | Hne].
  - rewrite !SLICE_UInt_bit by lia. cbn. rewrite orb_false_r.
    reflexivity.
  - destruct (Z.leb_spec 12 i) as [Hlo | Hlo].
    + destruct (Z.ltb_spec i 17) as [Hhi | Hhi]; cbn [andb].
      * rewrite (Z.testbit_neg_r _ (i - 17)) by lia.
        rewrite SLICE_UInt_bit by lia.
        destruct (Z.leb_spec (i - 12) (6 - 2)); [|lia].
        cbn [orb andb]. f_equal. lia.
      * rewrite !SLICE_UInt_bit by lia.
        destruct (Z.leb_spec (i - 17) (12 - 12)); [lia|].
        destruct (Z.leb_spec (i - 12) (6 - 2)); [lia|]. reflexivity.
    + cbn [andb]. rewrite !Z.testbit_neg_r by lia. reflexivity.
Qed.

End Decoder.

(** * The properties at concrete inputs *)

(** Sign extension of the two-bit value [0b11]. *)
Lemma sx_to_64_sign_extends_witness :
  1 < 2 < 64 /\ 0 <= 3 < 2 ^ 2
  /\ exists r : Z,
       sx_to_64 3 2 = Ok r
       /\ 0 <= r < 2 ^ 64
       /\ to_Long r = signExtend_reference 3 2
       /\ (forall i : Z, 0 <= i < 2 -> Z.testbit r i = Z.testbit 3 i)
       /\ (forall i : Z, 2 <= i < 64 -> Z.testbit r i = Z.testbit 3 (2 - 1)).
Proof.
  split; [lia|]. split; [lia|].
  apply (sx_to_64_sign_extends 3 2); lia.
Defined.

(** Bits [15:8] of [0xdeadbeef]. *)
Lemma SLICE_UInt_extracts_witness :
  0 <= 0xdeadbeef < 2 ^ 32 /\ 0 <= 8 <= 15 /\ 15 < 32
  /\ SLICE_UInt 0xdeadbeef 15 8
     = Z.land (Z.shiftr 0xdeadbeef 8) (2 ^ (15 - 8 + 1) - 1)
  /\ SLICE_UInt 0xdeadbeef 15 8 = (0xdeadbeef / 2 ^ 8) mod 2 ^ (15 - 8 + 1)
  /\ 0 <= SLICE_UInt 0xdeadbeef 15 8 < 2 ^ (15 - 8 + 1).
Proof.
  split; [lia|]. split; [lia|]. split; [lia|].
  apply (SLICE_UInt_extracts 0xdeadbeef 15 8); lia.
Defined.

(** [c.lui a0, 0x1] at address [0x1000]: the success path.  The block
    ends with the write of [0x1004] to the program counter, at offset 272
    in the sample layout. *)
Lemma disInstr_RISCV64_on_success_witness :
  VexArchRISCV64 = VexArchRISCV64
  /\ disInstr_RISCV64_WRK sample_guest_x sample_VEX_TRACE_FE
       (offset_ptr (window [x05; x65]%byte) 0) 0x1000 false
       (zeroed (initial_state 0))
     = Ok (true, lui_a0_state)
  /\ disInstr_RISCV64 sample_guest_x sample_guest_pc sample_VEX_TRACE_FE
       (window [x05; x65]%byte) 0 0x1000 VexArchRISCV64 false
       (initial_state 0)
     = match decode_success sample_guest_pc sample_VEX_TRACE_FE 0x1000
               lui_a0_state with
       | Ok (_, s2) => Ok (dres s2, s2)
       | Abort what => Abort what
       end
  /\ visible (decode_success sample_guest_pc sample_VEX_TRACE_FE 0x1000
                             lui_a0_state)
     = Ok (tt, mkDisResult 4 Dis_Continue Dis_HintNone Ijk_INVALID,
           mkIRSB []
             [IRStmt_Put 96 (IRExpr_Const (IRConst_U64 0x1000));
              IRStmt_Put 272 (IRExpr_Const (IRConst_U64 0x1004))])
  /\ visible (disInstr_RISCV64 sample_guest_x sample_guest_pc
                sample_VEX_TRACE_FE (window [x05; x65]%byte) 0 0x1000
                VexArchRISCV64 false (initial_state 0))
     = Ok (mkDisResult 4 Dis_Continue Dis_HintNone Ijk_INVALID,
           mkDisResult 4 Dis_Continue Dis_HintNone Ijk_INVALID,
           mkIRSB []
             [IRStmt_Put 96 (IRExpr_Const (IRConst_U64 0x1000));
              IRStmt_Put 272 (IRExpr_Const (IRConst_U64 0x1004))])
  /\ len (dres lui_a0_state) = 4
  /\ whatNext (dres lui_a0_state) = Dis_Continue
  /\ exists out : list Printed,
       disInstr_RISCV64 sample_guest_x sample_guest_pc sample_VEX_TRACE_FE
         (window [x05; x65]%byte) 0 0x1000 VexArchRISCV64 false
         (initial_state 0)
       = Ok (mkDisResult 4 Dis_Continue Dis_HintNone Ijk_INVALID,
             mkVexState (mkDisResult 4 Dis_Continue Dis_HintNone Ijk_INVALID)
               (mkIRSB []
                  [IRStmt_Put 96 (IRExpr_Const (IRConst_U64 0x1000));
                   IRStmt_Put 272 (IRExpr_Const (IRConst_U64 0x1004))])
               0 out).
Proof.
  split; [reflexivity|]. split; [vm_compute; reflexivity|].
  refine (disInstr_RISCV64_on_success sample_guest_x sample_guest_pc
            sample_VEX_TRACE_FE (window [x05; x65]%byte) 0 0x1000
            VexArchRISCV64 false (initial_state 0) lui_a0_state lui_a0_state
            _ _);
    [reflexivity | vm_compute; reflexivity].
Defined.

(** [c.lui zero, 0x1], a reserved encoding, at address [0x1000]: the
    failure path.  The block receives the write of [0x1000] to the program
    counter, at offset 272 in the sample layout. *)
Lemma disInstr_RISCV64_on_failure_witness :
  VexArchRISCV64 = VexArchRISCV64
  /\ 0 <= 0x1000 < 2 ^ 64
  /\ disInstr_RISCV64_WRK sample_guest_x sample_VEX_TRACE_FE
       (offset_ptr (window [x05; x60]%byte) 0) 0x1000 false
       (zeroed (initial_state 0))
     = Ok (false, undecoded_state)
  /\ exists (d : DisResult) (s2 : VexState),
       disInstr_RISCV64 sample_guest_x sample_guest_pc sample_VEX_TRACE_FE
         (window [x05; x60]%byte) 0 0x1000 VexArchRISCV64 false
         (initial_state 0)
       = Ok (d, s2)
       /\ dres s2 = d
       /\ len d = 0 /\ whatNext d = Dis_StopHere
       /\ jk_StopHere d = Ijk_NoDecode
       /\ hint d = Dis_HintNone
       /\ tyenv (irsb s2) = []
       /\ stmts (irsb s2)
          = [IRStmt_Put 272 (IRExpr_Const (IRConst_U64 0x1000))]
       /\ irsb undecoded_state = irsb (initial_state 0).
Proof.
  split; [reflexivity|]. split; [lia|]. split; [vm_compute; reflexivity|].
  refine (disInstr_RISCV64_on_failure sample_guest_x sample_guest_pc
            sample_VEX_TRACE_FE (window [x05; x60]%byte) 0 0x1000
            VexArchRISCV64 false (initial_state 0) undecoded_state _ _ _);
    [reflexivity | lia | vm_compute; reflexivity].
Defined.

(** [c.lui zero, 0x1] again: the worker fails and leaves the defaults.
    Around a decoder that stores the length 2 and reports failure, the
    same worker aborts on the assertion on the length. *)
Lemma failure_leaves_defaults_witness :
  disInstr_RISCV64_WRK sample_guest_x sample_VEX_TRACE_FE
    (window [x05; x60]%byte) 0x1000 false (initial_state 0)
  = Ok (false, undecoded_state)
  /\ (whatNext (dres undecoded_state) = Dis_Continue
      /\ len (dres undecoded_state) = 4
      /\ jk_StopHere (dres undecoded_state) = Ijk_INVALID
      /\ hint (dres undecoded_state) = Dis_HintNone)
  /\ (forall (insn : Z) (t' : VexState),
        dispatch_quadrant sample_guest_x sample_VEX_TRACE_FE insn false
                          (initial_state 0) = Ok (false, t') ->
        dres t' = dres (initial_state 0))
  /\ check_dres_unchanged false (initial_state 0)
     = Abort "dres->whatNext == Dis_Continue"
  /\ check_dres_unchanged false undecoded_state = Ok (tt, undecoded_state)
  /\ disInstr_RISCV64_WRK_with sample_VEX_TRACE_FE overwriting_decoder
       (window [x05; x60]%byte) 0x1000 false (initial_state 0)
     = Abort "dres->len == 4"
  /\ (forall s'' : VexState,
        disInstr_RISCV64_WRK_with sample_VEX_TRACE_FE overwriting_decoder
          (window [x05; x60]%byte) 0x1000 false (initial_state 0)
        = Ok (false, s'') ->
        whatNext (dres s'') = Dis_Continue /\ len (dres s'') = 4
        /\ jk_StopHere (dres s'') = Ijk_INVALID).
Proof.
  assert (Hrun : disInstr_RISCV64_WRK sample_guest_x sample_VEX_TRACE_FE
                   (window [x05; x60]%byte) 0x1000 false (initial_state 0)
                 = Ok (false, undecoded_state))
    by (vm_compute; reflexivity).
  destruct (failure_leaves_defaults sample_guest_x sample_VEX_TRACE_FE
              (window [x05; x60]%byte) 0x1000 false (initial_state 0)
              undecoded_state (initial_state 0) Hrun)
    as (Hdefaults & Hdispatch & Hcheck0 & _ & [out0 Hany] & Hall).
  destruct (failure_leaves_defaults sample_guest_x sample_VEX_TRACE_FE
              (window [x05; x60]%byte) 0x1000 false (initial_state 0)
              undecoded_state undecoded_state Hrun)
    as (_ & _ & Hcheck1 & _).
  split; [exact Hrun|]. split; [exact Hdefaults|].
  split; [exact Hdispatch|]. split; [exact Hcheck0|].
  split; [exact Hcheck1|]. split.
  - rewrite (Hany overwriting_decoder
               (mkVexState (mkDisResult 2 Dis_Continue Dis_HintNone
                                        Ijk_INVALID)
                           empty_IRSB 0 out0) eq_refl).
    reflexivity.
  - exact (Hall overwriting_decoder).
Defined.

(** The word [0x6005], [c.lui zero, 0x1]: the rule rejects it. *)
Lemma rejected_C_LUI_changes_nothing_witness :
  SLICE_UInt 0x6005 1 0 = X01
  /\ SLICE_UInt 0x6005 15 13 = BITS3 0 1 1
  /\ (C_LUI_rd 0x6005 = 0 \/ C_LUI_rd 0x6005 = 2 \/ C_LUI_nzimm 0x6005 = 0)
  /\ (exists out : list Printed,
        dis_RISCV64_compressed_01 sample_guest_x sample_VEX_TRACE_FE 0x6005
                                  true lui_a0_state
        = Ok (false,
              mkVexState (dres lui_a0_state) (irsb lui_a0_state)
                         (vex_traceflags lui_a0_state) out))
  /\ (exists out : list Printed,
        dispatch_quadrant sample_guest_x sample_VEX_TRACE_FE 0x6005 true
                          lui_a0_state
        = Ok (false,
              mkVexState (dres lui_a0_state) (irsb lui_a0_state)
                         (vex_traceflags lui_a0_state) out)).
Proof.
  split; [reflexivity|]. split; [reflexivity|].
  split; [left; reflexivity|].
  apply (rejected_C_LUI_changes_nothing sample_guest_x sample_VEX_TRACE_FE
           0x6005 true lui_a0_state);
    [reflexivity | reflexivity | left; reflexivity].
Defined.

(** The same instruction at [0x1000] and at [0x1002]. *)
Lemma misaligned_pc_aborts_witness :
  (0x1000 mod 4 = 0
   /\ exists (ok : bool) (s' : VexState),
        disInstr_RISCV64_WRK sample_guest_x sample_VEX_TRACE_FE
          (offset_ptr (window [x05; x65]%byte) 0) 0x1000 false
          (initial_state 0) = Ok (ok, s'))
  /\ (0x1002 mod 4 <> 0
      /\ disInstr_RISCV64_WRK sample_guest_x sample_VEX_TRACE_FE
           (offset_ptr (window [x05; x65]%byte) 0) 0x1002 false
           (initial_state 0)
         = Abort "0 == (guest_pc_curr_instr & 3ULL)")
  /\ (0x1002 mod 4 = 2
      /\ disInstr_RISCV64 sample_guest_x sample_guest_pc sample_VEX_TRACE_FE
           (window [x05; x65]%byte) 0 0x1002 VexArchRISCV64 false
           (initial_state 0)
         = Abort "0 == (guest_pc_curr_instr & 3ULL)").
Proof.
  destruct (misaligned_pc_aborts sample_guest_x sample_guest_pc
              sample_VEX_TRACE_FE (window [x05; x65]%byte) 0 0x1000 false
              (initial_state 0)) as (Haligned & _ & _).
  destruct (misaligned_pc_aborts sample_guest_x sample_guest_pc
              sample_VEX_TRACE_FE (window [x05; x65]%byte) 0 0x1002 false
              (initial_state 0)) as (_ & Hodd & Htwo).
  split; [split; [reflexivity | apply Haligned; reflexivity]|].
  split; [split; [discriminate | apply Hodd; discriminate]|].
  split; [reflexivity | apply Htwo; reflexivity].
Defined.

(** * The further properties at concrete inputs *)

(** Bit 3 of the register field of [0x6505]. *)
Lemma SLICE_UInt_testbit_witness :
  0 <= 7 <= 11 /\ 11 < 32 /\ 0 <= 3
  /\ Z.testbit (SLICE_UInt 0x6505 11 7) 3
     = (3 <=? 11 - 7) && Z.testbit 0x6505 (7 + 3).
Proof.
  split; [lia|]. split; [lia|]. split; [lia|].
  apply (SLICE_UInt_testbit 0x6505 11 7 3); lia.
Defined.

(** The low half of [0xdeadbeef] from its two bytes. *)
Lemma SLICE_UInt_split_witness :
  0 <= 0 <= 7 /\ 7 < 15 /\ 15 < 32
  /\ SLICE_UInt 0xdeadbeef 15 0
     = 2 ^ (7 - 0 + 1) * SLICE_UInt 0xdeadbeef 15 (7 + 1)
       + SLICE_UInt 0xdeadbeef 7 0.
Proof.
  split; [lia|]. split; [lia|]. split; [lia|].
  apply (SLICE_UInt_split 0xdeadbeef 15 7 0); lia.
Defined.

(** Two windows that hold [c.lui a0, 0x1] and differ after it. *)
Lemma getInsn_local_witness :
  window [x05; x65; xff; xff]%byte 0 = window [x05; x65]%byte 0
  /\ window [x05; x65; xff; xff]%byte 1 = window [x05; x65]%byte 1
  /\ (Z.land (UChar_val (window [x05; x65; xff; xff]%byte 0)) 3 <> 3
      \/ (window [x05; x65; xff; xff]%byte 2 = window [x05; x65]%byte 2
          /\ window [x05; x65; xff; xff]%byte 3 = window [x05; x65]%byte 3))
  /\ getInsn (window [x05; x65; xff; xff]%byte)
     = getInsn (window [x05; x65]%byte).
Proof.
  split; [reflexivity|]. split; [reflexivity|].
  split; [left; discriminate|].
  apply (getInsn_local (window [x05; x65; xff; xff]%byte)
                       (window [x05; x65]%byte));
    [reflexivity | reflexivity | left; discriminate].
Defined.

(** Width 1 is refused; width 18 keeps the low 18 bits of [0x7f000]. *)
Lemma sx_to_64_width_witness :
  ((1 <= 1 \/ 64 <= 1) /\ sx_to_64 0x7f000 1 = Abort "n > 1 && n < 64")
  /\ (1 < 18 < 64
      /\ sx_to_64 0x7f000 18 = Ok (sx_value (0x7f000 mod 2 ^ 18) 18)
      /\ sx_to_64 0x7f000 18 = sx_to_64 (0x7f000 mod 2 ^ 18) 18
      /\ sx_value (0x7f000 mod 2 ^ 18) 18 mod 2 ^ 18 = 0x7f000 mod 2 ^ 18).
Proof.
  destruct (sx_to_64_width 0x7f000 1) as [Hbad _].
  destruct (sx_to_64_width 0x7f000 18) as [_ Hgood].
  split; [split; [left; lia | apply Hbad; left; lia]|].
  split; [lia | apply Hgood; lia].
Defined.

(** The 18-bit value [0x3f000], whose bit 17 is set. *)
Lemma sx_to_64_signed_range_witness :
  1 < 18 < 64 /\ 0 <= 0x3f000 < 2 ^ 18
  /\ exists r : Z,
       sx_to_64 0x3f000 18 = Ok r
       /\ - 2 ^ (18 - 1) <= to_Long r < 2 ^ (18 - 1)
       /\ to_Long r
          = (if Z.testbit 0x3f000 (18 - 1) then 0x3f000 - 2 ^ 18
             else 0x3f000).
Proof.
  split; [lia|]. split; [lia|].
  apply (sx_to_64_signed_range 0x3f000 18); lia.
Defined.

(** Registers 10 and 32. *)
Lemma nameIReg64_injective_witness :
  0 <= 10 < 32 /\ 0 <= 32
  /\ (32 <= 32 -> nameIReg64 32 = Abort "iregNo < 32")
  /\ (exists name : string,
        nameIReg64 10 = Ok name /\ name <> EmptyString)
  /\ (nameIReg64 10 = nameIReg64 32 -> 10 = 32).
Proof.
  split; [lia|]. split; [lia|].
  apply (nameIReg64_injective 10 32); lia.
Defined.

(** Copying register 11 to register 10. *)
Lemma getIReg64_putIReg64_witness :
  0 <= 11 < 32 /\ 0 <= 10 < 32
  /\ (e <- lift (getIReg64 sample_guest_x 11);;
      putIReg64 sample_guest_x 10 e)%monad (initial_state 0)
     = Ok (tt,
           mkVexState (dres (initial_state 0))
             (mkIRSB (tyenv (irsb (initial_state 0)))
                     (stmts (irsb (initial_state 0))
                      ++ [IRStmt_Put (sample_guest_x 10)
                            (IRExpr_Get (sample_guest_x 11) Ity_I64)]))
             (vex_traceflags (initial_state 0))
             (vex_out (initial_state 0))).
Proof.
  split; [lia|]. split; [lia|].
  apply (getIReg64_putIReg64 sample_guest_x 11 10 (initial_state 0)); lia.
Defined.

(** The reserved [c.lui zero, 0x1] with [sigill_diag] set: three lines. *)
Lemma disInstr_RISCV64_prints_witness :
  disInstr_RISCV64 sample_guest_x sample_guest_pc sample_VEX_TRACE_FE
    (window [x05; x60]%byte) 0 0x1000 VexArchRISCV64 true (initial_state 0)
  = Ok (dres undecoded_final_state, undecoded_final_state)
  /\ vex_traceflags undecoded_final_state = vex_traceflags (initial_state 0)
  /\ exists lines : list Printed,
       vex_out undecoded_final_state = vex_out (initial_state 0) ++ lines
       /\ (length lines <= 4)%nat
       /\ (true = true -> len (dres undecoded_final_state) = 0 ->
           exists (before : list Printed) (fmt1 fmt2 : string),
             lines
             = before
               ++ [mkPrinted fmt1
                     [Arg_int (fst (getInsn
                                      (offset_ptr (window [x05; x60]%byte)
                                                  0)))];
                   mkPrinted fmt2
                     [Arg_str
                        (c_string
                           (dump_insn
                              (fst (getInsn
                                      (offset_ptr (window [x05; x60]%byte)
                                                  0)))))]]).
Proof.
  split; [vm_compute; reflexivity|].
  apply (disInstr_RISCV64_prints sample_guest_x sample_guest_pc
           sample_VEX_TRACE_FE (window [x05; x60]%byte) 0 0x1000 true
           (initial_state 0) undecoded_final_state
           (dres undecoded_final_state)).
  vm_compute; reflexivity.
Defined.

(** [c.lui a0, 0x1] with the trace bit clear and [sigill_diag] off. *)
Lemma disInstr_RISCV64_quiet_witness :
  Z.land (vex_traceflags (initial_state 0)) sample_VEX_TRACE_FE = 0
  /\ disInstr_RISCV64 sample_guest_x sample_guest_pc sample_VEX_TRACE_FE
       (window [x05; x65]%byte) 0 0x1000 VexArchRISCV64 false
       (initial_state 0)
     = Ok (dres lui_a0_final_state, lui_a0_final_state)
  /\ vex_out lui_a0_final_state = vex_out (initial_state 0)
  /\ vex_traceflags lui_a0_final_state = vex_traceflags (initial_state 0).
Proof.
  split; [reflexivity|]. split; [vm_compute; reflexivity|].
  apply (disInstr_RISCV64_quiet sample_guest_x sample_guest_pc
           sample_VEX_TRACE_FE (window [x05; x65]%byte) 0 0x1000
           VexArchRISCV64 (initial_state 0) lui_a0_final_state
           (dres lui_a0_final_state));
    [reflexivity | vm_compute; reflexivity].
Defined.

(** The 32-bit instruction [lui a0, 0x1] (bytes 37 15 00 00). *)
Lemma only_quadrant_01_decodes_witness :
  Z.land (UChar_val (window [x37; x15; x00; x00]%byte (0 + 0))) 3 <> 1
  /\ 0x1000 mod 4 = 0
  /\ visible (disInstr_RISCV64 sample_guest_x sample_guest_pc
                sample_VEX_TRACE_FE (window [x37; x15; x00; x00]%byte) 0
                0x1000 VexArchRISCV64 true (initial_state 0))
     = Ok (mkDisResult 0 Dis_StopHere Dis_HintNone Ijk_NoDecode,
           mkDisResult 0 Dis_StopHere Dis_HintNone Ijk_NoDecode,
           mkIRSB []
                  [IRStmt_Put 272 (IRExpr_Const (IRConst_U64 0x1000))]).
Proof.
  split; [discriminate|]. split; [reflexivity|].
  refine (only_quadrant_01_decodes sample_guest_x sample_guest_pc
            sample_VEX_TRACE_FE (window [x37; x15; x00; x00]%byte) 0 0x1000
            true (initial_state 0) _ _);
    [discriminate | reflexivity].
Defined.

(** [c.lui a0, 0x1] at [0x1000]: two statements, the second the write of
    the program counter. *)
Lemma disInstr_RISCV64_pc_write_witness :
  disInstr_RISCV64 sample_guest_x sample_guest_pc sample_VEX_TRACE_FE
    (window [x05; x65]%byte) 0 0x1000 VexArchRISCV64 false (initial_state 0)
  = Ok (dres lui_a0_final_state, lui_a0_final_state)
  /\ dres lui_a0_final_state = dres lui_a0_final_state
  /\ (dres lui_a0_final_state
      = mkDisResult 4 Dis_Continue Dis_HintNone Ijk_INVALID
      \/ dres lui_a0_final_state
         = mkDisResult 0 Dis_StopHere Dis_HintNone Ijk_NoDecode)
  /\ tyenv (irsb lui_a0_final_state) = tyenv (irsb (initial_state 0))
  /\ exists pre : list IRStmt,
       (length pre <= 1)%nat
       /\ stmts (irsb lui_a0_final_state)
          = stmts (irsb (initial_state 0)) ++ pre
            ++ [IRStmt_Put 272 (IRExpr_Const (IRConst_U64 0x1004))].
Proof.
  split; [vm_compute; reflexivity|].
  refine (disInstr_RISCV64_pc_write sample_guest_x sample_guest_pc
            sample_VEX_TRACE_FE (window [x05; x65]%byte) 0 0x1000
            VexArchRISCV64 false (initial_state 0) lui_a0_final_state
            (dres lui_a0_final_state) _).
  vm_compute; reflexivity.
Defined.

(** A call for another architecture, a call at [0x1002] and a call at
    [0x1000]. *)
Lemma disInstr_RISCV64_assertions_witness :
  (VexArchARM64 <> VexArchRISCV64
   /\ disInstr_RISCV64 sample_guest_x sample_guest_pc sample_VEX_TRACE_FE
        (window [x05; x65]%byte) 0 0x1000 VexArchARM64 false
        (initial_state 0)
      = Abort "guest_arch == VexArchRISCV64")
  /\ (0x1002 mod 4 <> 0
      /\ disInstr_RISCV64 sample_guest_x sample_guest_pc sample_VEX_TRACE_FE
           (window [x05; x65]%byte) 0 0x1002 VexArchRISCV64 false
           (initial_state 0)
         = Abort "0 == (guest_pc_curr_instr & 3ULL)")
  /\ (0x1000 mod 4 = 0
      /\ exists (d : DisResult) (s' : VexState),
           disInstr_RISCV64 sample_guest_x sample_guest_pc
             sample_VEX_TRACE_FE (window [x05; x65]%byte) 0 0x1000
             VexArchRISCV64 false (initial_state 0)
           = Ok (d, s')).
Proof.
  destruct (disInstr_RISCV64_assertions sample_guest_x sample_guest_pc
              sample_VEX_TRACE_FE (window [x05; x65]%byte) 0 0x1000
              VexArchARM64 false (initial_state 0)) as (Harch & _ & _).
  destruct (disInstr_RISCV64_assertions sample_guest_x sample_guest_pc
              sample_VEX_TRACE_FE (window [x05; x65]%byte) 0 0x1002
              VexArchRISCV64 false (initial_state 0)) as (_ & Hodd & _).
  destruct (disInstr_RISCV64_assertions sample_guest_x sample_guest_pc
              sample_VEX_TRACE_FE (window [x05; x65]%byte) 0 0x1000
              VexArchRISCV64 false (initial_state 0)) as (_ & _ & Hok).
  split; [split; [discriminate | apply Harch; discriminate]|].
  split; [split; [discriminate | apply Hodd; [reflexivity | discriminate]]|].
  split; [reflexivity | apply Hok; reflexivity].
Defined.

(** The same instruction at offset 0 of one buffer and at offset 2 of
    another, decoded with different flags. *)
Lemma disInstr_RISCV64_local_witness :
  (forall i : Z, 0 <= i <= 3 ->
     window [x05; x65]%byte (0 + i)
     = window [x01; x00; x05; x65]%byte (2 + i))
  /\ irsb (initial_state 0) = irsb (initial_state 128)
  /\ visible (disInstr_RISCV64 sample_guest_x sample_guest_pc
                sample_VEX_TRACE_FE (window [x05; x65]%byte) 0 0x1000
                VexArchRISCV64 false (initial_state 0))
     = visible (disInstr_RISCV64 sample_guest_x sample_guest_pc
                  sample_VEX_TRACE_FE (window [x01; x00; x05; x65]%byte) 2
                  0x1000 VexArchRISCV64 true (initial_state 128)).
Proof.
  assert (Hw : forall i : Z, 0 <= i <= 3 ->
            window [x05; x65]%byte (0 + i)
            = window [x01; x00; x05; x65]%byte (2 + i)).
  { intros i Hi.
    assert (i = 0 \/ i = 1 \/ i = 2 \/ i = 3) as [-> | [-> | [-> | ->]]]
      by lia; reflexivity. }
  split; [exact Hw|]. split; [reflexivity|].
  apply (disInstr_RISCV64_local sample_guest_x sample_guest_pc
           sample_VEX_TRACE_FE (window [x05; x65]%byte)
           (window [x01; x00; x05; x65]%byte) 0 2 0x1000 VexArchRISCV64
           false true (initial_state 0) (initial_state 128));
    [exact Hw | reflexivity].
Defined.

(** [c.lui a0, 0x1]: register 10 receives [0x1000]. *)
Lemma decoded_write_shape_witness :
  disInstr_RISCV64_WRK sample_guest_x sample_VEX_TRACE_FE
    (window [x05; x65]%byte) 0x1000 false (initial_state 0)
  = Ok (true, lui_a0_state)
  /\ exists rd imm : Z,
       irsb lui_a0_state
       = mkIRSB (tyenv (irsb (initial_state 0)))
                (stmts (irsb (initial_state 0))
                 ++ [IRStmt_Put (sample_guest_x rd)
                       (IRExpr_Const (IRConst_U64 imm))])
       /\ 1 <= rd < 32 /\ rd <> 2
       /\ 0 < imm < 2 ^ 64 /\ imm mod 4096 = 0
       /\ (forall i : Z, 17 <= i < 64 ->
                         Z.testbit imm i = Z.testbit imm 17)
       /\ - 2 ^ 17 <= to_Long imm < 2 ^ 17.
Proof.
  split; [vm_compute; reflexivity|].
  apply (decoded_write_shape sample_guest_x sample_VEX_TRACE_FE
           (window [x05; x65]%byte) 0x1000 false (initial_state 0)
           lui_a0_state).
  vm_compute; reflexivity.
Defined.

(** [c.lui a0, 0x1] is accepted. *)
Lemma disInstr_RISCV64_WRK_accepts_witness :
  disInstr_RISCV64_WRK sample_guest_x sample_VEX_TRACE_FE
    (window [x05; x65]%byte) 0x1000 false (initial_state 0)
  = Ok (true, lui_a0_state)
  /\ (true = true
      <-> (SLICE_UInt (fst (getInsn (window [x05; x65]%byte))) 1 0 = X01
           /\ SLICE_UInt (fst (getInsn (window [x05; x65]%byte))) 15 13
              = BITS3 0 1 1
           /\ C_LUI_rd (fst (getInsn (window [x05; x65]%byte))) <> 0
           /\ C_LUI_rd (fst (getInsn (window [x05; x65]%byte))) <> 2
           /\ C_LUI_nzimm (fst (getInsn (window [x05; x65]%byte))) <> 0)).
Proof.
  split; [vm_compute; reflexivity|].
  apply (disInstr_RISCV64_WRK_accepts sample_guest_x sample_VEX_TRACE_FE
           (window [x05; x65]%byte) 0x1000 false true (initial_state 0)
           lui_a0_state).
  vm_compute; reflexivity.
Defined.

(** Bit 12 of the immediate of [0x6505] is bit 2 of the word. *)
Lemma C_LUI_nzimm_bits_witness :
  0 <= 12
  /\ Z.testbit (C_LUI_nzimm 0x6505) 12
     = (if 12 =? 17 then Z.testbit 0x6505 12
        else if (12 <=? 12) && (12 <? 17) then Z.testbit 0x6505 (12 - 10)
        else false).
Proof.
  split; [lia|]. apply (C_LUI_nzimm_bits 0x6505 12). lia.
Defined.
